(** * Zenith Point: the progression engine of [game.js]

    A shallow embedding of the two [GameEngine] classes of [src/game.js]
    (the first, "Core Engine", is module [V1]; the second, "Relativistic
    Cockpit Engine", is module [V2]) and the properties of the numeric state
    machine they implement.

    Numbers.  A JavaScript number is idealised as a real number: [+], [-],
    [*], [/], [Math.min] and [Math.max] are the operations of [R], and
    [Math.pow b e] for a positive base [b] is [Rpower b e].  An owned count
    and the reboot counter only ever hold [0], a value incremented by [++] or
    a value read from a save, and are natural numbers; [b ** n] and
    [Math.pow b n] for such an [n] are [b ^ n].  [Date.now ()] is an integer
    number of milliseconds.  Rounding, overflow to [Infinity] and [NaN] are
    outside this model: what is proved of it is meant of orders, ranges,
    guards and the code's own assignments, not of equalities between numbers
    the code computes along different paths; module [Doubles] records, in
    binary64, where such an equality of the specification breaks.

    Presentation.  DOM writes, the starfield and the audio layers do not feed
    back into the engine.  For the first engine, the only one with a save, the
    calls an operation makes to its collaborators are recorded as a list of
    [call]s next to the new state; the second engine is given as plain state
    transitions.  Of the presentation itself the numbers are modelled: what
    [updateUI] computes for the progress bar, the reboot control, the cards,
    the time of arrival and the velocity ring, the text of [formatTime], the
    motion of the stars and the filter frequency of the audio. *)

From Stdlib Require Import PrimFloat.
From Stdlib Require Import Reals Lra Lia List String ZArith QArith Qreals Bool.
From Stdlib Require Import DecimalString.

(** A decimal literal of a double stands for the nearest binary64 number, as
    it does in the source. *)
Set Warnings "-inexact-float".
Import ListNotations.

Open Scope R_scope.

(** ** Upgrades

    One element of [this.upgrades].  [type] is absent ([None]) on an additive
    upgrade and ['mult'] on a multiplicative one. *)

Record upgrade : Type := mkUpgrade {
  id : string;
  name : string;
  desc : string;
  baseCost : R;
  costMult : R;
  count : nat;
  power : R;
  type : option string
}.

Definition set_count (n : nat) (u : upgrade) : upgrade :=
  mkUpgrade (id u) (name u) (desc u) (baseCost u) (costMult u) n (power u) (type u).

(** [u.count++] *)
Definition incr_count (u : upgrade) : upgrade := set_count (S (count u)) u.

(** [!u.type]: an absent type and the empty string are falsy. *)
Definition no_type (u : upgrade) : bool :=
  match type u with
  | None => true
  | Some t => String.eqb t ""
  end.

(** [u.type === 'mult'] *)
Definition type_is_mult (u : upgrade) : bool :=
  match type u with
  | None => false
  | Some t => String.eqb t "mult"
  end.

(** [this.upgrades.find(u => u.id === i)]: the first upgrade with that id,
    [None] for [undefined]. *)
Definition find_upgrade (i : string) (l : list upgrade) : option upgrade :=
  find (fun u => String.eqb (id u) i) l.

(** The object [find] returns is an element of the array, so a write to it is
    a write to the first element with that id. *)
Fixpoint update_found (i : string) (f : upgrade -> upgrade) (l : list upgrade)
  : list upgrade :=
  match l with
  | [] => []
  | u :: r => if String.eqb (id u) i then f u :: r else u :: update_found i f r
  end.

(** [getCost(u)]: [u.baseCost * (u.costMult ** u.count)] in the first engine,
    [u.baseCost * Math.pow(u.costMult, u.count)] in the second. *)
Definition getCost (u : upgrade) : R := baseCost u * costMult u ^ count u.

(** [Math.pow] on a positive base. *)
Definition Math_pow (b e : R) : R := Rpower b e.

(** ** Parsed JSON

    What [JSON.parse] returns.  A number literal is a decimal, hence a
    rational; an object is the list of its properties. *)

#[warnings="-register-all"] Inductive json : Type :=
| JNull
| JBool (b : bool)
| JNum (q : Q)
| JStr (s : string)
| JArr (l : list json)
| JObj (m : list (string * json)).

Fixpoint assoc (k : string) (m : list (string * json)) : option json :=
  match m with
  | [] => None
  | (k', v) :: r => if String.eqb k' k then Some v else assoc k r
  end.

(** Truthiness of the value of an expression; [None] is [undefined]. *)
Definition truthy (v : option json) : bool :=
  match v with
  | None => false
  | Some JNull => false
  | Some (JBool b) => b
  | Some (JNum q) => negb (Qeq_bool q 0)
  | Some (JStr s) => negb (String.eqb s "")
  | Some (JArr _) => true
  | Some (JObj _) => true
  end.

(** The natural number a JSON number is, if it is one. *)
Definition Q_to_nat (q : Q) : option nat :=
  let r := Qred q in
  if (Pos.eqb (Qden r) 1 && Z.leb 0 (Qnum r))%bool
  then Some (Z.to_nat (Qnum r)) else None.

Inductive error : Type := TypeError | SyntaxError.

(** How a method ends: it returns, it throws, or it returns after storing a
    value that is not a number where the engine holds a number ([Untyped]),
    which this model does not follow further. *)
Inductive outcome (A : Type) : Type :=
| Returned (a : A)
| Thrown (e : error)
| Untyped.

Arguments Returned {A} a.
Arguments Thrown {A} e.
Arguments Untyped {A}.

Definition bind {A B : Type} (x : outcome A) (k : A -> outcome B) : outcome B :=
  match x with
  | Returned a => k a
  | Thrown e => Thrown e
  | Untyped => Untyped
  end.

Notation "x <- c ;; k" := (bind c (fun x => k))
  (at level 61, c at next level, right associativity).

(** [data.k]: reading a property of [null] throws; a value that is not an
    object has none of the properties a save uses. *)
Definition prop (k : string) (data : json) : outcome (option json) :=
  match data with
  | JNull => Thrown TypeError
  | JObj m => Returned (assoc k m)
  | _ => Returned None
  end.

(** [v || d] stored in a field that holds a real number. *)
Definition number_or (v : option json) (d : R) : outcome R :=
  if truthy v then
    match v with
    | Some (JNum q) => Returned (Q2R q)
    | _ => Untyped
    end
  else Returned d.

(** [v || d] stored in a field that holds a counter. *)
Definition counter_or (v : option json) (d : nat) : outcome nat :=
  if truthy v then
    match v with
    | Some (JNum q) =>
        match Q_to_nat q with Some n => Returned n | None => Untyped end
    | _ => Untyped
    end
  else Returned d.

(** What [localStorage.getItem] and [JSON.parse] make of the stored item: no
    item ([null]), the empty string, a text that [JSON.parse] rejects, or a
    text that parses. *)
Inductive item : Type :=
| Absent
| EmptyText
| Malformed
| Json (data : json).

(** ** The first engine *)

Module V1.

Record GameEngine : Type := mkGame {
  flux : R;
  totalFlux : R;
  coherence : R;
  rebootCount : nat;
  upgrades : list upgrade;
  lastTick : Z
}.

Definition initial_upgrades : list upgrade :=
  [ mkUpgrade "u1" "Flux Inductor" "Increases base Flux rate by 0.5"
      10 1.15 0 0.5 None;
    mkUpgrade "u2" "Resonance Chamber" "Increases base Flux rate by 5.0"
      100 1.2 0 5.0 None;
    mkUpgrade "u3" "Dimensional Splitter" "Increases base Flux rate by 50.0"
      1000 1.25 0 50.0 None;
    mkUpgrade "u4" "Quantum Stabilizer" "Multiplies total rate by 2x"
      10000 1.5 0 2.0 (Some "mult"%string) ].

(** The field initialisers of the constructor; [now] is [Date.now ()]. *)
Definition constructor (now : Z) : GameEngine :=
  mkGame 0 0 1.0 0 initial_upgrades now.

(** The object [saveGame] serialises. *)
Record save_data : Type := mkSave {
  saved_flux : R;
  saved_totalFlux : R;
  saved_coherence : R;
  saved_rebootCount : nat;
  saved_upgrades : list (string * nat)
}.

(** What an operation asks of its collaborators. *)
Inductive call : Type :=
| Notify
| RenderUpgrades
| UpdateUI
| SetItem (key : string) (data : save_data).

(** [addFlux(amount)] *)
Definition addFlux (amount : R) (g : GameEngine) : GameEngine * list call :=
  (mkGame (flux g + amount) (totalFlux g + amount) (coherence g)
          (rebootCount g) (upgrades g) (lastTick g),
   [UpdateUI]).

(** The body of the [forEach] of [getRate], on the pair [(base, mult)]. *)
Definition getRate_step (acc : R * R) (u : upgrade) : R * R :=
  if no_type u then (fst acc + INR (count u) * power u, snd acc)
  else if type_is_mult u then (fst acc, snd acc * power u ^ count u)
  else acc.

Definition getRate (g : GameEngine) : R :=
  let acc := fold_left getRate_step (upgrades g) (0, 1) in
  fst acc * snd acc * coherence g.

Definition getZenithTarget (g : GameEngine) : R :=
  Math_pow 10 (15 + 1.2 * (coherence g - 1)).

Definition getRebootRequirement (g : GameEngine) : R :=
  Math_pow 10 (10 + 2.5 * (coherence g - 1)).

(** The click handler of [collect-btn]. *)
Definition collect (g : GameEngine) : GameEngine * list call :=
  addFlux (1 * coherence g) g.

(** [buyUpgrade(id)].  For an id no upgrade has, [find] returns [undefined]
    and [getCost(undefined)] throws a TypeError: [None]. *)
Definition buyUpgrade (i : string) (g : GameEngine)
  : option (GameEngine * list call) :=
  match find_upgrade i (upgrades g) with
  | None => None
  | Some u =>
      let cost := getCost u in
      if Rle_dec cost (flux g) then
        Some (mkGame (flux g - cost) (totalFlux g) (coherence g) (rebootCount g)
                     (update_found i incr_count (upgrades g)) (lastTick g),
              [Notify; RenderUpgrades; UpdateUI])
      else Some (g, [])
  end.

(** [executeReboot()] *)
Definition executeReboot (g : GameEngine) : GameEngine * list call :=
  let req := getRebootRequirement g in
  if Rle_dec req (flux g) then
    (mkGame 0 (totalFlux g) (coherence g + 1) (S (rebootCount g))
            (map (set_count 0) (upgrades g)) (lastTick g),
     [Notify; RenderUpgrades; UpdateUI])
  else (g, []).

(** The seconds since the previous tick, as the interval callback of
    [startLoop] computes them when [Date.now ()] is [now]. *)
Definition delta (now : Z) (g : GameEngine) : R :=
  IZR (now - lastTick g) / 1000.

(** One run of the interval callback of [startLoop]. *)
Definition tick (now : Z) (g : GameEngine) : GameEngine * list call :=
  let d := delta now g in
  let g1 := mkGame (flux g) (totalFlux g) (coherence g) (rebootCount g)
                   (upgrades g) now in
  let gain := getRate g1 * d in
  addFlux gain g1.

(** The part of [updateUI] that computes the Zenith percentage. *)
Definition progress (g : GameEngine) : R :=
  (flux g / getZenithTarget g) * 100.

Definition clampedProgress (g : GameEngine) : R :=
  Rmin (progress g) 99.999999.

(** [saveGame()] *)
Definition saveGame (g : GameEngine) : GameEngine * list call :=
  let data := mkSave (flux g) (totalFlux g) (coherence g) (rebootCount g)
                     (map (fun u => (id u, count u)) (upgrades g)) in
  (g, [SetItem "zenith_save" data]).

(** The body of the [forEach] of [loadGame], for one saved upgrade [su]. *)
Definition load_entry (su : json) (l : list upgrade) : outcome (list upgrade) :=
  i <- prop "id" su ;;
  match i with
  | Some (JStr s) =>
      match find_upgrade s l with
      | Some _ =>
          c <- prop "count" su ;;
          match c with
          | Some (JNum q) =>
              match Q_to_nat q with
              | Some n => Returned (update_found s (set_count n) l)
              | None => Untyped
              end
          | _ => Untyped
          end
      | None => Returned l
      end
  | _ => Returned l
  end.

Fixpoint load_entries (sus : list json) (l : list upgrade)
  : outcome (list upgrade) :=
  match sus with
  | [] => Returned l
  | su :: r => l' <- load_entry su l ;; load_entries r l'
  end.

(** [data.upgrades.forEach(...)]: only an array has a [forEach]. *)
Definition load_upgrades (v : option json) (l : list upgrade)
  : outcome (list upgrade) :=
  match v with
  | Some (JArr sus) => load_entries sus l
  | _ => Thrown TypeError
  end.

(** [loadGame()], with [saved] what is stored under ['zenith_save']. *)
Definition loadGame (saved : item) (g : GameEngine) : outcome GameEngine :=
  match saved with
  | Absent => Returned g
  | EmptyText => Returned g
  | Malformed => Thrown SyntaxError
  | Json data =>
      v1 <- prop "flux" data ;;
      f <- number_or v1 0 ;;
      v2 <- prop "totalFlux" data ;;
      t <- number_or v2 0 ;;
      v3 <- prop "coherence" data ;;
      c <- number_or v3 1.0 ;;
      v4 <- prop "rebootCount" data ;;
      r <- counter_or v4 0 ;;
      v5 <- prop "upgrades" data ;;
      l <- load_upgrades v5 (upgrades g) ;;
      Returned (mkGame f t c r l (lastTick g))
  end.

(** The four operations the presentation layer drives. *)
Inductive operation : Type :=
| OpTick (now : Z)
| OpCollect
| OpPurchase (i : string)
| OpReboot.

Definition run (o : operation) (g : GameEngine)
  : option (GameEngine * list call) :=
  match o with
  | OpTick now => Some (tick now g)
  | OpCollect => Some (collect g)
  | OpPurchase i => buyUpgrade i g
  | OpReboot => Some (executeReboot g)
  end.

(** The part of [updateUI] that enables the reboot button. *)
Definition rebootEnabled (g : GameEngine) : bool :=
  if Rle_dec (getRebootRequirement g) (flux g) then true else false.

(** The class [renderUpgrades] and [updateUI] give the card of [u]: [true]
    for ['available'], [false] for ['locked']. *)
Definition cardAvailable (g : GameEngine) (u : upgrade) : bool :=
  if Rle_dec (getCost u) (flux g) then true else false.

(** What [JSON.parse] returns on the text [JSON.stringify] makes of the
    object of [saveGame], when its three numbers are the rationals [f], [t]
    and [c]. *)
Definition saved_entry (e : string * nat) : json :=
  JObj [("id"%string, JStr (fst e));
        ("count"%string, JNum (inject_Z (Z.of_nat (snd e))))].

Definition saved_json (f t c : Q) (r : nat) (ups : list (string * nat)) : json :=
  JObj [("flux"%string, JNum f);
        ("totalFlux"%string, JNum t);
        ("coherence"%string, JNum c);
        ("rebootCount"%string, JNum (inject_Z (Z.of_nat r)));
        ("upgrades"%string, JArr (map saved_entry ups))].

(** [j] is what is read back from the save of [data]. *)
Definition stringified (data : save_data) (j : json) : Prop :=
  exists f t c : Q,
    Q2R f = saved_flux data /\ Q2R t = saved_totalFlux data /\
    Q2R c = saved_coherence data /\
    j = saved_json f t c (saved_rebootCount data) (saved_upgrades data).

(** [new GameEngine ()]: after the field initialisers the constructor calls
    [init ()], whose [loadGame ()] reads the stored item [saved]; [setupDOM]
    and [startLoop] leave the engine as it is. *)
Definition create (saved : item) (now : Z) : outcome GameEngine :=
  loadGame saved (constructor now).

End V1.

(** ** Built-ins of the presentation code *)

(** [Math.floor] *)
Definition Math_floor (x : R) : Z := Zfloor x.

(** [Math.log10] on a positive number. *)
Definition Math_log10 (x : R) : R := ln x / ln 10.

(** [a % b]: the quotient is truncated towards zero, so the remainder has
    the sign of [a]. *)
Definition js_rem (a b : R) : R :=
  a - b * IZR (if Rle_dec 0 (a / b) then Zfloor (a / b) else Zceil (a / b)).

(** [n.toString().padStart(2, '0')] for a number [n] that is an integer. *)
Definition pad2 (n : Z) : string :=
  let t := NilZero.string_of_int (Z.to_int n) in
  match String.length t with
  | O => "00"
  | S O => "0" ++ t
  | _ => t
  end.

(** ** The audio layers

    Of [AudioManager], what the engine feeds: [update(velocity,
    distanceRatio)].  [Math.pow(x, 2)] is [x ^ 2], for every [x]. *)

Module AudioManager.

Definition resonance (distanceRatio : R) : R := (1 - distanceRatio) ^ 2.

(** The frequency [update] asks of the filter of every string layer; [None]
    before [init ()], when [update] returns at once. *)
Definition update (initialized : bool) (velocity distanceRatio : R) : option R :=
  if negb initialized then None
  else Some (350 + resonance distanceRatio * 300).

End AudioManager.

(** ** The starfield

    Of [Starfield], the motion of the stars in [update(velocity)]; the
    drawing is left out.  [rnd k] are the two numbers [Math.random ()] returns
    for star [k] when it is recycled. *)

Module Starfield.

Record star : Type := mkStar {
  x : R;
  y : R;
  z : R;
  o : R
}.

(** [this.speed], as [update(velocity)] sets it. *)
Definition speed (velocity : R) : R :=
  Rmin (0.1 + Math_log10 (velocity + 1) * 2) 50.

(** The body of the [forEach], up to the drawing. *)
Definition move (sp width height : R) (r : R * R) (s : star) : star :=
  let z' := z s - sp in
  if Rle_dec z' 0 then
    mkStar (fst r * width - width / 2) (snd r * height - height / 2) width (o s)
  else mkStar (x s) (y s) z' (o s).

Fixpoint move_all (sp width height : R) (rnd : nat -> R * R) (k : nat)
         (stars : list star) : list star :=
  match stars with
  | [] => []
  | s :: r => move sp width height (rnd k) s
              :: move_all sp width height rnd (S k) r
  end.

Definition update (velocity width height : R) (rnd : nat -> R * R)
           (stars : list star) : list star :=
  move_all (speed velocity) width height rnd 0 stars.

(** What a star is drawn with. *)
Definition size (width : R) (s : star) : R := Rmax 0 ((1 - z s / width) * 3).

Definition alpha (width : R) (s : star) : R := Rmax 0 (1 - z s / width).

End Starfield.

(** ** The second engine *)

Module V2.

Record GameEngine : Type := mkGame {
  flux : R;
  totalFlux : R;
  coherence : R;
  velocity : R;
  distance : R;
  baseDistance : R;
  reboots : nat;
  upgrades : list upgrade;
  lastTick : Z;
  epsilon : R;
  initialized : bool
}.

Definition initial_upgrades : list upgrade :=
  [ mkUpgrade "u1" "Resonance Core" "Increases base Flux generation"
      15 1.15 0 1.0 None;
    mkUpgrade "u2" "Solenoid Arrays" "Enhances Flux collection efficiency"
      150 1.2 0 10.0 None;
    mkUpgrade "u3" "Dimensional Splice" "Increases throughput by 4.0x per unit"
      2000 1.6 0 4.0 (Some "mult"%string);
    mkUpgrade "u4" "Inertial Bypass" "Reduces relativistic drag (Overall 2.5x)"
      50000 2.2 0 2.5 (Some "mult"%string) ].

(** The field initialisers of the constructor; [now] is [Date.now ()]. *)
Definition constructor (now : Z) : GameEngine :=
  mkGame 0 0 1.0 0 1e15 1e15 0 initial_upgrades now 1e-9 false.

(** [addFlux(amount)] *)
Definition addFlux (amount : R) (g : GameEngine) : GameEngine :=
  mkGame (flux g + amount) (totalFlux g + amount) (coherence g) (velocity g)
         (distance g) (baseDistance g) (reboots g) (upgrades g) (lastTick g)
         (epsilon g) (initialized g).

(** The body of the [forEach] of [getRate], on the pair [(base, mult)]. *)
Definition getRate_step (acc : R * R) (u : upgrade) : R * R :=
  if no_type u then (fst acc + INR (count u) * power u, snd acc)
  else (fst acc, snd acc * power u ^ count u).

Definition getRate (g : GameEngine) : R :=
  let acc := fold_left getRate_step (upgrades g) (0, 1) in
  fst acc * snd acc * coherence g.

Definition getZenithTarget (g : GameEngine) : R :=
  Math_pow 10 (15 + 1.5 * (coherence g - 1)).

Definition getRebootRequirement (g : GameEngine) : R :=
  Math_pow 10 (10 + 2.8 * (coherence g - 1)).

(** The click handler of [collect-btn]. *)
Definition collect (g : GameEngine) : GameEngine :=
  let gain := 1 * Math_pow (coherence g) 1.5 in
  addFlux gain g.

(** [buyUpgrade(id)]; [None] is the TypeError of [getCost(undefined)]. *)
Definition buyUpgrade (i : string) (g : GameEngine) : option GameEngine :=
  match find_upgrade i (upgrades g) with
  | None => None
  | Some u =>
      let cost := getCost u in
      if Rle_dec cost (flux g) then
        Some (mkGame (flux g - cost) (totalFlux g) (coherence g) (velocity g)
                     (distance g) (baseDistance g) (reboots g)
                     (update_found i incr_count (upgrades g)) (lastTick g)
                     (epsilon g) (initialized g))
      else Some g
  end.

(** The engine once [coherence], [reboots], [flux] and the counts are
    rewritten by [executeReboot], before the distance is recalibrated. *)
Definition rebooted (g : GameEngine) : GameEngine :=
  mkGame 0 (totalFlux g) (coherence g + 1) (velocity g) (distance g)
         (baseDistance g) (S (reboots g)) (map (set_count 0) (upgrades g))
         (lastTick g) (epsilon g) (initialized g).

(** [executeReboot()] *)
Definition executeReboot (g : GameEngine) : GameEngine :=
  let req := getRebootRequirement g in
  if Rle_dec req (flux g) then
    let g1 := rebooted g in
    let b := getZenithTarget g1 in
    mkGame (flux g1) (totalFlux g1) (coherence g1) (velocity g1) b b
           (reboots g1) (upgrades g1) (lastTick g1) (epsilon g1)
           (initialized g1)
  else g.

Definition delta (now : Z) (g : GameEngine) : R :=
  IZR (now - lastTick g) / 1000.

(** One frame of [animate()], up to the calls to the presentation. *)
Definition animate (now : Z) (g : GameEngine) : GameEngine :=
  let d := delta now g in
  let rate := getRate g in
  let g1 := addFlux (rate * d) g in
  let v := rate * 10 in
  let closingSpeed := v * epsilon g in
  let dist := distance g1 - closingSpeed * d in
  let dist' := if Rlt_dec dist 1e5 then 1e5 else dist in
  mkGame (flux g1) (totalFlux g1) (coherence g1) v dist' (baseDistance g1)
         (reboots g1) (upgrades g1) now (epsilon g1) (initialized g1).

(** The part of [updateUI] that computes the progress bar. *)
Definition progress (g : GameEngine) : R :=
  Rmax 0 ((1 - distance g / getZenithTarget g) * 100).

Definition clamped (g : GameEngine) : R :=
  Rmin (progress g) 99.9999999.

Inductive operation : Type :=
| OpTick (now : Z)
| OpCollect
| OpPurchase (i : string)
| OpReboot.

Definition run (o : operation) (g : GameEngine) : option GameEngine :=
  match o with
  | OpTick now => Some (animate now g)
  | OpCollect => Some (collect g)
  | OpPurchase i => buyUpgrade i g
  | OpReboot => Some (executeReboot g)
  end.

(** The part of [updateUI] that shows the reboot container. *)
Definition rebootEnabled (g : GameEngine) : bool :=
  if Rle_dec (getRebootRequirement g) (flux g) then true else false.

(** The class [renderUpgrades] and [updateUI] give the card of [u]: [true]
    for ['available'], [false] for ['locked']. *)
Definition cardAvailable (g : GameEngine) (u : upgrade) : bool :=
  if Rle_dec (getCost u) (flux g) then true else false.

(** The parts of [updateUI] that compute the time of arrival and the
    velocity ring. *)
Definition closingSpeed (g : GameEngine) : R := velocity g * epsilon g.


Definition ringOffset (g : GameEngine) : R :=
  let ringFull := 283 in
  ringFull - Rmin 1 (velocity g / 1e12) * ringFull.


(** [formatTime(s)]; every real number is finite. *)
Definition formatTime (s : R) : string :=
  if Req_dec_T s 0 then "--:--:--"
  else if Rlt_dec (31536000 * 100) s then "> 100 YEARS"
  else
    let h := Math_floor (s / 3600) in
    let m := Math_floor (js_rem s 3600 / 60) in
    let sec := Math_floor (js_rem s 60) in
    pad2 h ++ ":" ++ pad2 m ++ ":" ++ pad2 sec.

End V2.

(** ** Where rounding shows

    The engine computes in binary64.  An order, a range or a guard proved over
    the reals carries over to the doubles a game reaches; an equality between
    two numbers computed along different paths need not.  [Doubles] evaluates
    in binary64 the expressions for which this decides a property.  Of [**]
    and [Math.pow], whose last bit the language leaves to the implementation,
    it takes only the results that are not in doubt: [b ** 0] is 1, [b ** 1]
    is [b], [b ** 2] is the rounded product [b * b], and [Math.pow(10, e)] is
    [Infinity] from [e = 309] on, [10 ^ 309] being above the largest double;
    elsewhere it answers [None]. *)

Module Doubles.

Definition pow_count (b : float) (n : nat) : option float :=
  match n with
  | 0%nat => Some 1%float
  | 1%nat => Some b
  | 2%nat => Some (PrimFloat.mul b b)
  | _ => None
  end.

(** [u.baseCost * (u.costMult ** u.count)] *)
Definition getCost (baseCost costMult : float) (count : nat) : option float :=
  option_map (PrimFloat.mul baseCost) (pow_count costMult count).



Definition Math_pow_10 (e : float) : option float :=
  if PrimFloat.leb 309%float e then Some PrimFloat.infinity else None.

(** [Math.pow(10, 15 + (rate * (coherence - 1)))], with [rate] 1.2 in the
    first engine and 1.5 in the second. *)
Definition getZenithTarget (rate coherence : float) : option float :=
  Math_pow_10
    (PrimFloat.add 15%float
       (PrimFloat.mul rate (PrimFloat.sub coherence 1%float))).

(** The target at [coherence + 1] over the target at [coherence]. *)
Definition target_ratio (rate coherence : float) : option float :=
  match getZenithTarget rate (PrimFloat.add coherence 1%float),
        getZenithTarget rate coherence with
  | Some t', Some t => Some (PrimFloat.div t' t)
  | _, _ => None
  end.

End Doubles.

(** ** The data model and some engines

    What the properties below are stated with: the constraints the data
    model puts on an engine, a monotonic clock, and a few concrete engines. *)

Definition priced (u : upgrade) : Prop := 0 < baseCost u /\ 1 < costMult u.

Definition nonneg_powers (l : list upgrade) : Prop :=
  Forall (fun u => 0 <= power u) l.

(** The data model: coherence at least 1, no negative power. *)
Definition V1_valid (g : V1.GameEngine) : Prop :=
  1 <= V1.coherence g /\ nonneg_powers (V1.upgrades g).

Definition V2_valid (g : V2.GameEngine) : Prop :=
  1 <= V2.coherence g /\ nonneg_powers (V2.upgrades g).

(** The clock has not gone backwards since the previous tick. *)
Definition V1_clock_ok (o : V1.operation) (g : V1.GameEngine) : Prop :=
  match o with
  | V1.OpTick now => (V1.lastTick g <= now)%Z
  | _ => True
  end.

Definition V2_clock_ok (o : V2.operation) (g : V2.GameEngine) : Prop :=
  match o with
  | V2.OpTick now => (V2.lastTick g <= now)%Z
  | _ => True
  end.

Definition is_save (c : V1.call) : bool :=
  match c with
  | V1.SetItem _ _ => true
  | _ => false
  end.

(** Whether running [o] writes the save. *)
Definition triggers_save (o : V1.operation) (g : V1.GameEngine) : bool :=
  match V1.run o g with
  | Some (_, cs) => existsb is_save cs
  | None => false
  end.

(** An engine of each kind that has just reached the first requirement. *)
Definition V1_ready : V1.GameEngine :=
  V1.mkGame 1e10 2e10 1 0 V1.initial_upgrades 0.

Definition V2_ready : V2.GameEngine :=
  V2.mkGame 1e10 2e10 1 0 1e15 1e15 0 V2.initial_upgrades 0 1e-9 true.

Definition V1_funded : V1.GameEngine :=
  V1.mkGame 10 10 1 0 V1.initial_upgrades 0.

Definition V2_funded : V2.GameEngine :=
  V2.mkGame 15 15 1 0 1e15 1e15 0 V2.initial_upgrades 0 1e-9 true.

(** One Flux Inductor owned, 10 Flux in hand, last tick at 1000 ms. *)
Definition V1_running : V1.GameEngine :=
  V1.mkGame 10 20 1 0 (update_found "u1" incr_count V1.initial_upgrades) 1000.


(** The engines a play session can reach: from the constructor, by
    operations, with a clock that does not go backwards. *)
Inductive V1_reachable : V1.GameEngine -> Prop :=
| V1_reach_start (now : Z) : V1_reachable (V1.constructor now)
| V1_reach_step (o : V1.operation) (g g' : V1.GameEngine) (cs : list V1.call) :
    V1_reachable g -> V1_clock_ok o g -> V1.run o g = Some (g', cs) ->
    V1_reachable g'.

Inductive V2_reachable : V2.GameEngine -> Prop :=
| V2_reach_start (now : Z) : V2_reachable (V2.constructor now)
| V2_reach_step (o : V2.operation) (g g' : V2.GameEngine) :
    V2_reachable g -> V2_clock_ok o g -> V2.run o g = Some g' ->
    V2_reachable g'.

(** [u'] has the count [n] and, field by field, everything else of [u]. *)
Definition same_but_count (n : nat) (u u' : upgrade) : Prop :=
  count u' = n /\ id u' = id u /\ name u' = name u /\ desc u' = desc u /\
  baseCost u' = baseCost u /\ costMult u' = costMult u /\
  power u' = power u /\ type u' = type u.

(** The rate as a formula: the sum of [count * power] over the additive
    upgrades, and the product of [power ^ count] over the multiplicative
    ones, to be compared with what the [forEach] of [getRate] accumulates. *)
Fixpoint additive_sum (l : list upgrade) : R :=
  match l with
  | [] => 0
  | u :: r => (if no_type u then INR (count u) * power u else 0) + additive_sum r
  end.

Fixpoint V1_mult_product (l : list upgrade) : R :=
  match l with
  | [] => 1
  | u :: r =>
      (if no_type u then 1 else if type_is_mult u then power u ^ count u else 1)
      * V1_mult_product r
  end.

Fixpoint V2_mult_product (l : list upgrade) : R :=
  match l with
  | [] => 1
  | u :: r => (if no_type u then 1 else power u ^ count u) * V2_mult_product r
  end.

(** The two lists hold the same upgrades up to their counts. *)
Definition same_definitions (l l' : list upgrade) : Prop :=
  map (set_count 0) l = map (set_count 0) l'.

(** No additive power is negative and no multiplicative power is below 1. *)
Definition boosting (l : list upgrade) : Prop :=
  Forall (fun u => if no_type u then 0 <= power u else 1 <= power u) l.

(** [l] with the counts of its first upgrades replaced by [ns]. *)
Fixpoint set_counts (ns : list nat) (l : list upgrade) : list upgrade :=
  match ns, l with
  | n :: ns', u :: r => set_count n u :: set_counts ns' r
  | _, _ => l
  end.

(** The table of each engine with the counts [n1], [n2], [n3], [n4]. *)
Definition V1_owned (n1 n2 n3 n4 : nat) : list upgrade :=
  set_counts [n1; n2; n3; n4] V1.initial_upgrades.

Definition V2_owned (n1 n2 n3 n4 : nat) : list upgrade :=
  set_counts [n1; n2; n3; n4] V2.initial_upgrades.

(** Nothing is stored under ['zenith_save'], or the empty string. *)
Definition nothing_stored (saved : item) : Prop :=
  saved = Absent \/ saved = EmptyText.

(** The engines of a session of the first engine that the constructor starts
    with [saved] stored: [loadGame] has returned, and operations follow, with
    a clock that does not go backwards. *)
Inductive V1_played (saved : item) : V1.GameEngine -> Prop :=
| V1_play_start (now : Z) (g : V1.GameEngine) :
    V1.create saved now = Returned g -> V1_played saved g
| V1_play_step (o : V1.operation) (g g' : V1.GameEngine) (cs : list V1.call) :
    V1_played saved g -> V1_clock_ok o g -> V1.run o g = Some (g', cs) ->
    V1_played saved g'.

(** ** Properties *)

(** Case analysis on the guard [this.flux >= x] of a method. *)
Ltac on_guard :=
  match goal with
  | |- context [Rle_dec ?a ?b] => destruct (Rle_dec a b)
  | H : context [Rle_dec ?a ?b] |- _ => destruct (Rle_dec a b)
  end.

(** *** [Math.pow] *)

Lemma Math_pow_pos (b e : R) : 0 < Math_pow b e.
Proof. unfold Math_pow, Rpower. apply exp_pos. Qed.

Lemma Math_pow_10_lt (x y : R) : x < y -> Math_pow 10 x < Math_pow 10 y.
Proof. intros H. unfold Math_pow. apply Rpower_lt; lra. Qed.

Lemma Math_pow_10_plus (x y : R) :
  Math_pow 10 (x + y) = Math_pow 10 x * Math_pow 10 y.
Proof. unfold Math_pow. apply Rpower_plus. Qed.

Lemma V1_target_pos (g : V1.GameEngine) : 0 < V1.getZenithTarget g.
Proof. apply Math_pow_pos. Qed.

Lemma V2_target_pos (g : V2.GameEngine) : 0 < V2.getZenithTarget g.
Proof. apply Math_pow_pos. Qed.

(** *** The completion percentage *)

Lemma V1_progress_nonneg (g : V1.GameEngine) :
  0 <= V1.flux g -> 0 <= V1.progress g.
Proof.
  intros H. unfold V1.progress.
  apply Rmult_le_pos; [| lra].
  apply Rmult_le_pos; [assumption |].
  left. apply Rinv_0_lt_compat, V1_target_pos.
Qed.

(** C1: for every engine with [flux >= 0] (second engine: [distance >= 0])
    the percentage [updateUI] computes lies in [[0, 100)]: it is never 100,
    however large [flux] is against [getZenithTarget ()]. *)
Theorem completion_fraction_in_range :
  (forall g : V1.GameEngine,
      0 <= V1.flux g -> 0 <= V1.clampedProgress g < 100) /\
  (forall g : V2.GameEngine,
      0 <= V2.distance g -> 0 <= V2.clamped g < 100).
Proof.
  split; intros g H.
  - pose proof (V1_progress_nonneg g H) as Hp.
    unfold V1.clampedProgress. split.
    + apply Rmin_glb; lra.
    + apply Rle_lt_trans with 99.999999; [apply Rmin_r | lra].
  - unfold V2.clamped, V2.progress. split.
    + apply Rmin_glb; [apply Rmax_l | lra].
    + apply Rle_lt_trans with 99.9999999; [apply Rmin_r | lra].
Qed.

Lemma completion_fraction_in_range_witness :
  0 <= V1.clampedProgress (V1.mkGame 1e21 1e21 1 0 V1.initial_upgrades 0) < 100 /\
  0 <= V2.clamped (V2.constructor 0) < 100.
Proof.
  split.
  - apply (proj1 completion_fraction_in_range). simpl. lra.
  - apply (proj2 completion_fraction_in_range). simpl. lra.
Defined.

(** With [flux] a million times the target the clamp is what is shown. *)
Lemma V1_clamp_reached (g : V1.GameEngine) :
  V1.flux g = V1.getZenithTarget g * 1e6 -> V1.clampedProgress g = 99.999999.
Proof.
  intros H. pose proof (V1_target_pos g) as Ht.
  unfold V1.clampedProgress, V1.progress. rewrite H.
  replace (V1.getZenithTarget g * 1e6 / V1.getZenithTarget g * 100)
    with 1e8 by (field; lra).
  apply Rmin_right. lra.
Qed.

(** *** Reboot *)

Lemma counts_zeroed (l : list upgrade) :
  Forall (fun u => count u = 0%nat) (map (set_count 0) l).
Proof. induction l as [| u r IH]; simpl; constructor; auto. Qed.



Lemma V1_reboot_declined (g : V1.GameEngine) :
  V1.flux g < V1.getRebootRequirement g -> V1.executeReboot g = (g, []).
Proof.
  intros H. unfold V1.executeReboot.
  on_guard; [lra | reflexivity].
Qed.

Lemma V1_reboot_done (g : V1.GameEngine) :
  V1.getRebootRequirement g <= V1.flux g ->
  fst (V1.executeReboot g) =
  V1.mkGame 0 (V1.totalFlux g) (V1.coherence g + 1) (S (V1.rebootCount g))
            (map (set_count 0) (V1.upgrades g)) (V1.lastTick g).
Proof.
  intros H. unfold V1.executeReboot.
  on_guard; [reflexivity | contradiction].
Qed.

Lemma V2_reboot_declined (g : V2.GameEngine) :
  V2.flux g < V2.getRebootRequirement g -> V2.executeReboot g = g.
Proof.
  intros H. unfold V2.executeReboot.
  on_guard; [lra | reflexivity].
Qed.

Lemma V2_reboot_done (g : V2.GameEngine) :
  V2.getRebootRequirement g <= V2.flux g ->
  V2.executeReboot g =
  let b := V2.getZenithTarget (V2.rebooted g) in
  V2.mkGame 0 (V2.totalFlux g) (V2.coherence g + 1) (V2.velocity g) b b
            (S (V2.reboots g)) (map (set_count 0) (V2.upgrades g))
            (V2.lastTick g) (V2.epsilon g) (V2.initialized g).
Proof.
  intros H. unfold V2.executeReboot.
  on_guard; [reflexivity | contradiction].
Qed.


(** At coherence 1 the requirement is [1e10] in both engines. *)
Lemma Math_pow_10_10 (x : R) : x = 10 -> Math_pow 10 x = 1e10.
Proof.
  intros ->. unfold Math_pow.
  replace 10 with (INR 10) at 2 by (simpl; lra).
  rewrite Rpower_pow by lra. lra.
Qed.

Lemma V1_requirement_at_1 (g : V1.GameEngine) :
  V1.coherence g = 1 -> V1.getRebootRequirement g = 1e10.
Proof.
  intros H. unfold V1.getRebootRequirement. apply Math_pow_10_10. rewrite H. lra.
Qed.

Lemma V2_requirement_at_1 (g : V2.GameEngine) :
  V2.coherence g = 1 -> V2.getRebootRequirement g = 1e10.
Proof.
  intros H. unfold V2.getRebootRequirement. apply Math_pow_10_10. rewrite H. lra.
Qed.

Lemma V1_ready_meets : V1.getRebootRequirement V1_ready <= V1.flux V1_ready.
Proof. rewrite V1_requirement_at_1 by reflexivity. simpl. lra. Qed.

Lemma V2_ready_meets : V2.getRebootRequirement V2_ready <= V2.flux V2_ready.
Proof. rewrite V2_requirement_at_1 by reflexivity. simpl. lra. Qed.




(** C10: a reboot that goes through leaves [totalFlux] as it was. *)
Theorem reboot_keeps_totalFlux :
  (forall g : V1.GameEngine,
      V1.getRebootRequirement g <= V1.flux g ->
      V1.totalFlux (fst (V1.executeReboot g)) = V1.totalFlux g) /\
  (forall g : V2.GameEngine,
      V2.getRebootRequirement g <= V2.flux g ->
      V2.totalFlux (V2.executeReboot g) = V2.totalFlux g).
Proof.
  split; intros g H.
  - rewrite (V1_reboot_done g H). reflexivity.
  - rewrite (V2_reboot_done g H). reflexivity.
Qed.

Lemma reboot_keeps_totalFlux_witness :
  V1.totalFlux (fst (V1.executeReboot V1_ready)) = 2e10 /\
  V2.totalFlux (V2.executeReboot V2_ready) = 2e10.
Proof.
  split.
  - apply (proj1 reboot_keeps_totalFlux V1_ready V1_ready_meets).
  - apply (proj2 reboot_keeps_totalFlux V2_ready V2_ready_meets).
Defined.

(** *** The target against coherence *)

(** In exact arithmetic one more unit of coherence multiplies the target by
    [10 ^ 1.2], respectively [10 ^ 1.5]. *)
Lemma V1_target_step (g g' : V1.GameEngine) :
  V1.coherence g' = V1.coherence g + 1 ->
  V1.getZenithTarget g' = V1.getZenithTarget g * Math_pow 10 1.2.
Proof.
  intros H. unfold V1.getZenithTarget. rewrite H, <- Math_pow_10_plus.
  f_equal. lra.
Qed.

Lemma V2_target_step (g g' : V2.GameEngine) :
  V2.coherence g' = V2.coherence g + 1 ->
  V2.getZenithTarget g' = V2.getZenithTarget g * Math_pow 10 1.5.
Proof.
  intros H. unfold V2.getZenithTarget. rewrite H, <- Math_pow_10_plus.
  f_equal. lra.
Qed.

(** [10 ^ 1.2] is the fifth root of [10 ^ 6], and [10 ^ 1.5] the square root
    of [10 ^ 3]. *)
Lemma Math_pow_10_1_2_bounds : 15.848 < Math_pow 10 1.2 < 15.849.
Proof.
  pose proof (Math_pow_pos 10 1.2) as Hp.
  assert (H5 : Math_pow 10 1.2 ^ 5 = 10 ^ 6).
  { unfold Math_pow in *. rewrite <- (Rpower_pow 5) by exact Hp.
    rewrite Rpower_mult.
    replace (1.2 * INR 5) with (INR 6) by (simpl; lra).
    apply Rpower_pow. lra. }
  split.
  - destruct (Rlt_le_dec 15.848 (Math_pow 10 1.2)) as [H | H]; [exact H |].
    assert (Math_pow 10 1.2 ^ 5 <= 15.848 ^ 5) by (apply pow_incr; lra).
    rewrite H5 in *. lra.
  - destruct (Rlt_le_dec (Math_pow 10 1.2) 15.849) as [H | H]; [exact H |].
    assert (15.849 ^ 5 <= Math_pow 10 1.2 ^ 5) by (apply pow_incr; lra).
    rewrite H5 in *. lra.
Qed.

Lemma Math_pow_10_1_5_bounds : 31.622 < Math_pow 10 1.5 < 31.623.
Proof.
  pose proof (Math_pow_pos 10 1.5) as Hp.
  assert (H2 : Math_pow 10 1.5 ^ 2 = 10 ^ 3).
  { unfold Math_pow in *. rewrite <- (Rpower_pow 2) by exact Hp.
    rewrite Rpower_mult.
    replace (1.5 * INR 2) with (INR 3) by (simpl; lra).
    apply Rpower_pow. lra. }
  split.
  - destruct (Rlt_le_dec 31.622 (Math_pow 10 1.5)) as [H | H]; [exact H |].
    assert (Math_pow 10 1.5 ^ 2 <= 31.622 ^ 2) by (apply pow_incr; lra).
    rewrite H2 in *. lra.
  - destruct (Rlt_le_dec (Math_pow 10 1.5) 31.623) as [H | H]; [exact H |].
    assert (31.623 ^ 2 <= Math_pow 10 1.5 ^ 2) by (apply pow_incr; lra).
    rewrite H2 in *. lra.
Qed.

(** C7, as the code has it: for every coherence of at least 1, the target
    one unit of coherence further over the target is, whatever the
    coherence, within the same narrow range around [10 ^ 1.2] in the first
    engine ([15.848 .. 15.849]) and around [10 ^ 1.5] in the second
    ([31.622 .. 31.623]). *)
Theorem zenith_target_ratio :
  (forall g g' : V1.GameEngine,
      1 <= V1.coherence g -> V1.coherence g' = V1.coherence g + 1 ->
      15.848 < V1.getZenithTarget g' / V1.getZenithTarget g < 15.849) /\
  (forall g g' : V2.GameEngine,
      1 <= V2.coherence g -> V2.coherence g' = V2.coherence g + 1 ->
      31.622 < V2.getZenithTarget g' / V2.getZenithTarget g < 31.623).
Proof.
  split; intros g g' _ H.
  - pose proof (V1_target_pos g) as Hp. rewrite (V1_target_step g g' H).
    replace (V1.getZenithTarget g * Math_pow 10 1.2 / V1.getZenithTarget g)
      with (Math_pow 10 1.2) by (field; lra).
    apply Math_pow_10_1_2_bounds.
  - pose proof (V2_target_pos g) as Hp. rewrite (V2_target_step g g' H).
    replace (V2.getZenithTarget g * Math_pow 10 1.5 / V2.getZenithTarget g)
      with (Math_pow 10 1.5) by (field; lra).
    apply Math_pow_10_1_5_bounds.
Qed.

Lemma zenith_target_ratio_witness :
  15.848 < V1.getZenithTarget (fst (V1.executeReboot V1_ready)) /
           V1.getZenithTarget V1_ready < 15.849 /\
  31.622 < V2.getZenithTarget (V2.executeReboot V2_ready) /
           V2.getZenithTarget V2_ready < 31.623.
Proof.
  split.
  - apply (proj1 zenith_target_ratio V1_ready).
    + simpl. lra.
    + rewrite (V1_reboot_done V1_ready V1_ready_meets). reflexivity.
  - apply (proj2 zenith_target_ratio V2_ready).
    + simpl. lra.
    + rewrite (V2_reboot_done V2_ready V2_ready_meets). reflexivity.
Defined.

(** C7 as the specification words it fails in the code's doubles: at
    coherence 246 in the first engine, and 197 in the second, the exponent
    is 309, the target and the next one are both [Infinity], and their ratio
    is [NaN], which is no constant. *)
Lemma target_ratio_is_not_a_number :
  Doubles.getZenithTarget 1.2 246 = Some PrimFloat.infinity /\
  Doubles.getZenithTarget 1.2 247 = Some PrimFloat.infinity /\
  option_map PrimFloat.is_nan (Doubles.target_ratio 1.2 246) = Some true /\
  option_map PrimFloat.is_nan (Doubles.target_ratio 1.5 197) = Some true.
Proof. repeat split; reflexivity. Qed.

(** *** Costs *)

Lemma priced_tables (u : upgrade) :
  In u V1.initial_upgrades \/ In u V2.initial_upgrades -> priced u.
Proof.
  unfold priced. simpl.
  intros [H | H]; repeat (destruct H as [<- | H]; [simpl; lra |]);
    contradiction.
Qed.








(** *** Purchases *)

Lemma find_upgrade_id (i : string) (l : list upgrade) (u : upgrade) :
  find_upgrade i l = Some u -> id u = i.
Proof.
  unfold find_upgrade. intros H. apply find_some in H.
  destruct H as [_ H]. apply String.eqb_eq. exact H.
Qed.

Lemma find_after_update (i : string) (f : upgrade -> upgrade)
      (l : list upgrade) (u : upgrade) :
  (forall v, id (f v) = id v) ->
  find_upgrade i l = Some u ->
  find_upgrade i (update_found i f l) = Some (f u).
Proof.
  intros Hf. unfold find_upgrade.
  induction l as [| v r IH]; simpl; [discriminate |].
  destruct (String.eqb (id v) i) eqn:E; simpl.
  - intros H. injection H as <-. rewrite Hf, E. reflexivity.
  - rewrite E. exact IH.
Qed.

Lemma find_other_after_update (i j : string) (f : upgrade -> upgrade)
      (l : list upgrade) :
  (forall v, id (f v) = id v) ->
  j <> i ->
  find_upgrade j (update_found i f l) = find_upgrade j l.
Proof.
  intros Hf Hji. unfold find_upgrade.
  induction l as [| v r IH]; simpl; [reflexivity |].
  destruct (String.eqb (id v) i) eqn:E; simpl.
  - rewrite Hf. apply String.eqb_eq in E.
    destruct (String.eqb (id v) j) eqn:E'; [| reflexivity].
    apply String.eqb_eq in E'. congruence.
  - rewrite IH. reflexivity.
Qed.

Lemma incr_count_id (v : upgrade) : id (incr_count v) = id v.
Proof. reflexivity. Qed.

Lemma V1_buy_declined (i : string) (g : V1.GameEngine) (u : upgrade) :
  find_upgrade i (V1.upgrades g) = Some u ->
  V1.flux g < getCost u -> V1.buyUpgrade i g = Some (g, []).
Proof.
  intros Hu H. unfold V1.buyUpgrade. rewrite Hu. cbv zeta.
  on_guard; [lra | reflexivity].
Qed.

Lemma V1_buy_done (i : string) (g : V1.GameEngine) (u : upgrade) :
  find_upgrade i (V1.upgrades g) = Some u ->
  getCost u <= V1.flux g ->
  V1.buyUpgrade i g =
  Some (V1.mkGame (V1.flux g - getCost u) (V1.totalFlux g) (V1.coherence g)
                  (V1.rebootCount g)
                  (update_found i incr_count (V1.upgrades g)) (V1.lastTick g),
        [V1.Notify; V1.RenderUpgrades; V1.UpdateUI]).
Proof.
  intros Hu H. unfold V1.buyUpgrade. rewrite Hu. cbv zeta.
  on_guard; [reflexivity | contradiction].
Qed.

Lemma V2_buy_declined (i : string) (g : V2.GameEngine) (u : upgrade) :
  find_upgrade i (V2.upgrades g) = Some u ->
  V2.flux g < getCost u -> V2.buyUpgrade i g = Some g.
Proof.
  intros Hu H. unfold V2.buyUpgrade. rewrite Hu. cbv zeta.
  on_guard; [lra | reflexivity].
Qed.

Lemma V2_buy_done (i : string) (g : V2.GameEngine) (u : upgrade) :
  find_upgrade i (V2.upgrades g) = Some u ->
  getCost u <= V2.flux g ->
  V2.buyUpgrade i g =
  Some (V2.mkGame (V2.flux g - getCost u) (V2.totalFlux g) (V2.coherence g)
                  (V2.velocity g) (V2.distance g) (V2.baseDistance g)
                  (V2.reboots g)
                  (update_found i incr_count (V2.upgrades g)) (V2.lastTick g)
                  (V2.epsilon g) (V2.initialized g)).
Proof.
  intros Hu H. unfold V2.buyUpgrade. rewrite Hu. cbv zeta.
  on_guard; [reflexivity | contradiction].
Qed.

(** C3: for an id [i] that [find] resolves to the upgrade [u],
    [buyUpgrade i] changes nothing while [flux] is below [getCost u]; from
    there on it takes exactly [getCost u], the cost at the count before the
    purchase, off [flux]; the upgrade [find] then resolves [i] to has the
    count of [u] plus 1 and every other field of [u], and the other upgrades
    are as they were. *)
Theorem purchase_exact (i : string) (u : upgrade) :
  (forall g : V1.GameEngine,
      find_upgrade i (V1.upgrades g) = Some u ->
      (V1.flux g < getCost u -> V1.buyUpgrade i g = Some (g, [])) /\
      (getCost u <= V1.flux g ->
       exists g' cs u',
         V1.buyUpgrade i g = Some (g', cs) /\
         V1.flux g' = V1.flux g - getCost u /\
         find_upgrade i (V1.upgrades g') = Some u' /\
         same_but_count (S (count u)) u u' /\
         forall j, j <> i ->
           find_upgrade j (V1.upgrades g') = find_upgrade j (V1.upgrades g))) /\
  (forall g : V2.GameEngine,
      find_upgrade i (V2.upgrades g) = Some u ->
      (V2.flux g < getCost u -> V2.buyUpgrade i g = Some g) /\
      (getCost u <= V2.flux g ->
       exists g' u',
         V2.buyUpgrade i g = Some g' /\
         V2.flux g' = V2.flux g - getCost u /\
         find_upgrade i (V2.upgrades g') = Some u' /\
         same_but_count (S (count u)) u u' /\
         forall j, j <> i ->
           find_upgrade j (V2.upgrades g') = find_upgrade j (V2.upgrades g))).
Proof.
  split; intros g Hu; split.
  - apply V1_buy_declined, Hu.
  - intros H. eexists. eexists. exists (incr_count u).
    split; [apply V1_buy_done; eassumption |].
    simpl. split; [reflexivity |]. split; [| split].
    + apply (find_after_update i incr_count _ u incr_count_id Hu).
    + repeat split.
    + intros j Hj. apply find_other_after_update; [apply incr_count_id | exact Hj].
  - apply V2_buy_declined, Hu.
  - intros H. eexists. exists (incr_count u).
    split; [apply V2_buy_done; eassumption |].
    simpl. split; [reflexivity |]. split; [| split].
    + apply (find_after_update i incr_count _ u incr_count_id Hu).
    + repeat split.
    + intros j Hj. apply find_other_after_update; [apply incr_count_id | exact Hj].
Qed.

Lemma purchase_exact_witness :
  let u1 := mkUpgrade "u1" "Flux Inductor" "Increases base Flux rate by 0.5"
                      10 1.15 0 0.5 None in
  let u2 := mkUpgrade "u1" "Resonance Core" "Increases base Flux generation"
                      15 1.15 0 1.0 None in
  V1.buyUpgrade "u1" (V1.constructor 0) = Some (V1.constructor 0, []) /\
  (exists g' cs u',
      V1.buyUpgrade "u1" V1_funded = Some (g', cs) /\
      V1.flux g' = 10 - getCost u1 /\
      find_upgrade "u1" (V1.upgrades g') = Some u' /\
      same_but_count 1 u1 u' /\
      forall j, j <> "u1"%string ->
        find_upgrade j (V1.upgrades g') = find_upgrade j V1.initial_upgrades) /\
  V2.buyUpgrade "u1" (V2.constructor 0) = Some (V2.constructor 0) /\
  (exists g' u',
      V2.buyUpgrade "u1" V2_funded = Some g' /\
      V2.flux g' = 15 - getCost u2 /\
      find_upgrade "u1" (V2.upgrades g') = Some u' /\
      same_but_count 1 u2 u' /\
      forall j, j <> "u1"%string ->
        find_upgrade j (V2.upgrades g') = find_upgrade j V2.initial_upgrades).
Proof.
  intros u1 u2.
  split; [| split; [| split]].
  - apply (proj1 (proj1 (purchase_exact "u1" u1) (V1.constructor 0) eq_refl)).
    unfold getCost. simpl. lra.
  - apply (proj2 (proj1 (purchase_exact "u1" u1) V1_funded eq_refl)).
    unfold getCost. simpl. lra.
  - apply (proj1 (proj2 (purchase_exact "u1" u2) (V2.constructor 0) eq_refl)).
    unfold getCost. simpl. lra.
  - apply (proj2 (proj2 (purchase_exact "u1" u2) V2_funded eq_refl)).
    unfold getCost. simpl. lra.
Defined.

(** *** Ticks *)

Lemma V1_rate_fold_nonneg (l : list upgrade) (acc : R * R) :
  nonneg_powers l -> 0 <= fst acc -> 0 <= snd acc ->
  0 <= fst (fold_left V1.getRate_step l acc) /\
  0 <= snd (fold_left V1.getRate_step l acc).
Proof.
  intros Hl. revert acc.
  induction Hl as [| u r Hu Hr IH]; intros acc Hb Hm; simpl; [tauto |].
  apply IH; unfold V1.getRate_step;
    destruct (no_type u); [| destruct (type_is_mult u) | | destruct (type_is_mult u)];
    simpl; try assumption.
  - pose proof (pos_INR (count u)). nra.
  - apply Rmult_le_pos; [assumption | apply pow_le; assumption].
Qed.

Lemma V2_rate_fold_nonneg (l : list upgrade) (acc : R * R) :
  nonneg_powers l -> 0 <= fst acc -> 0 <= snd acc ->
  0 <= fst (fold_left V2.getRate_step l acc) /\
  0 <= snd (fold_left V2.getRate_step l acc).
Proof.
  intros Hl. revert acc.
  induction Hl as [| u r Hu Hr IH]; intros acc Hb Hm; simpl; [tauto |].
  apply IH; unfold V2.getRate_step; destruct (no_type u); simpl; try assumption.
  - pose proof (pos_INR (count u)). nra.
  - apply Rmult_le_pos; [assumption | apply pow_le; assumption].
Qed.

Lemma V1_rate_nonneg (g : V1.GameEngine) : V1_valid g -> 0 <= V1.getRate g.
Proof.
  intros [Hc Hl]. unfold V1.getRate. cbv zeta.
  destruct (V1_rate_fold_nonneg (V1.upgrades g) (0, 1) Hl) as [Hb Hm];
    simpl; try lra.
  apply Rmult_le_pos; [apply Rmult_le_pos; assumption | lra].
Qed.

Lemma V2_rate_nonneg (g : V2.GameEngine) : V2_valid g -> 0 <= V2.getRate g.
Proof.
  intros [Hc Hl]. unfold V2.getRate. cbv zeta.
  destruct (V2_rate_fold_nonneg (V2.upgrades g) (0, 1) Hl) as [Hb Hm];
    simpl; try lra.
  apply Rmult_le_pos; [apply Rmult_le_pos; assumption | lra].
Qed.

Lemma V1_delta_nonneg (now : Z) (g : V1.GameEngine) :
  (V1.lastTick g <= now)%Z -> 0 <= V1.delta now g.
Proof.
  intros H. unfold V1.delta.
  assert (0 <= IZR (now - V1.lastTick g)) by (apply IZR_le; lia). lra.
Qed.

Lemma V2_delta_nonneg (now : Z) (g : V2.GameEngine) :
  (V2.lastTick g <= now)%Z -> 0 <= V2.delta now g.
Proof.
  intros H. unfold V2.delta.
  assert (0 <= IZR (now - V2.lastTick g)) by (apply IZR_le; lia). lra.
Qed.

Lemma V1_running_rate : V1.getRate V1_running = 0.5.
Proof. unfold V1.getRate. simpl. lra. Qed.


Lemma V1_tick_adds (now : Z) (g : V1.GameEngine) :
  V1.flux (fst (V1.tick now g)) = V1.flux g + V1.getRate g * V1.delta now g /\
  V1.totalFlux (fst (V1.tick now g)) =
    V1.totalFlux g + V1.getRate g * V1.delta now g.
Proof. split; reflexivity. Qed.

Lemma V2_animate_adds (now : Z) (g : V2.GameEngine) :
  V2.flux (V2.animate now g) = V2.flux g + V2.getRate g * V2.delta now g /\
  V2.totalFlux (V2.animate now g) =
    V2.totalFlux g + V2.getRate g * V2.delta now g.
Proof. split; reflexivity. Qed.

(** C4, as the code has it: a tick cannot fail and does not clamp; whatever
    the sign of the elapsed time [delta], it adds exactly
    [getRate () * delta] to [flux] and to [totalFlux]. *)
Theorem tick_adds_rate_times_delta :
  (forall (now : Z) (g : V1.GameEngine),
      V1.flux (fst (V1.tick now g)) =
        V1.flux g + V1.getRate g * V1.delta now g /\
      V1.totalFlux (fst (V1.tick now g)) =
        V1.totalFlux g + V1.getRate g * V1.delta now g) /\
  (forall (now : Z) (g : V2.GameEngine),
      V2.flux (V2.animate now g) =
        V2.flux g + V2.getRate g * V2.delta now g /\
      V2.totalFlux (V2.animate now g) =
        V2.totalFlux g + V2.getRate g * V2.delta now g).
Proof. split; intros now g; [apply V1_tick_adds | apply V2_animate_adds]. Qed.

(** C4 as the specification words it fails: with one Flux Inductor owned and
    [Date.now ()] one second behind [lastTick], the elapsed time is -1, and
    the tick takes half a Flux off both [flux] and [totalFlux], where a tick
    with no elapsed time leaves them alone. *)
Lemma tick_does_not_clamp :
  V1.delta 0 V1_running = -1 /\
  V1.flux (fst (V1.tick 0 V1_running)) = 9.5 /\
  V1.flux (fst (V1.tick 0 V1_running)) < V1.flux V1_running /\
  V1.totalFlux (fst (V1.tick 0 V1_running)) < V1.totalFlux V1_running /\
  V1.flux (fst (V1.tick 1000 V1_running)) = V1.flux V1_running.
Proof.
  assert (Hd : V1.delta 0 V1_running = -1) by (unfold V1.delta; simpl; lra).
  assert (H0 : V1.delta 1000 V1_running = 0) by (unfold V1.delta; simpl; lra).
  pose proof V1_running_rate as Hr.
  destruct (V1_tick_adds 0%Z V1_running) as [Hf Ht].
  destruct (V1_tick_adds 1000%Z V1_running) as [Hf' _].
  rewrite Hf, Ht, Hf', Hd, H0, Hr. simpl. repeat split; lra.
Qed.

(** With the clock not gone backwards a tick takes nothing away. *)
Lemma V1_tick_monotone (now : Z) (g : V1.GameEngine) :
  V1_valid g -> (V1.lastTick g <= now)%Z ->
  V1.flux g <= V1.flux (fst (V1.tick now g)) /\
  V1.totalFlux g <= V1.totalFlux (fst (V1.tick now g)).
Proof.
  intros Hv Hn. destruct (V1_tick_adds now g) as [-> ->].
  pose proof (V1_rate_nonneg g Hv). pose proof (V1_delta_nonneg now g Hn).
  split; nra.
Qed.

Lemma V2_animate_monotone (now : Z) (g : V2.GameEngine) :
  V2_valid g -> (V2.lastTick g <= now)%Z ->
  V2.flux g <= V2.flux (V2.animate now g) /\
  V2.totalFlux g <= V2.totalFlux (V2.animate now g).
Proof.
  intros Hv Hn. destruct (V2_animate_adds now g) as [-> ->].
  pose proof (V2_rate_nonneg g Hv). pose proof (V2_delta_nonneg now g Hn).
  split; nra.
Qed.

(** *** [flux] is never negative *)

Lemma nonneg_powers_update (i : string) (f : upgrade -> upgrade)
      (l : list upgrade) :
  (forall v, power (f v) = power v) ->
  nonneg_powers l -> nonneg_powers (update_found i f l).
Proof.
  intros Hf Hl. induction Hl as [| u r Hu Hr IH]; simpl; [constructor |].
  destruct (String.eqb (id u) i); constructor; auto.
  rewrite Hf. exact Hu.
Qed.

Lemma nonneg_powers_zeroed (l : list upgrade) :
  nonneg_powers l -> nonneg_powers (map (set_count 0) l).
Proof.
  intros Hl. induction Hl as [| u r Hu Hr IH]; simpl; constructor; auto.
Qed.

Lemma nonneg_powers_tables :
  nonneg_powers V1.initial_upgrades /\ nonneg_powers V2.initial_upgrades.
Proof. split; repeat constructor; simpl; lra. Qed.

(** The data model holds at start and every operation keeps it. *)
Lemma V1_valid_constructor (now : Z) : V1_valid (V1.constructor now).
Proof. split; [simpl; lra | apply nonneg_powers_tables]. Qed.

Lemma V2_valid_constructor (now : Z) : V2_valid (V2.constructor now).
Proof. split; [simpl; lra | apply nonneg_powers_tables]. Qed.

Lemma V1_valid_run (o : V1.operation) (g g' : V1.GameEngine)
      (cs : list V1.call) :
  V1_valid g -> V1.run o g = Some (g', cs) -> V1_valid g'.
Proof.
  intros [Hc Hl] Hrun. destruct o as [now | | i |]; simpl in Hrun.
  - injection Hrun as <- _. split; assumption.
  - injection Hrun as <- _. split; assumption.
  - unfold V1.buyUpgrade in Hrun.
    destruct (find_upgrade i (V1.upgrades g)) as [u |]; [| discriminate].
    cbv zeta in Hrun.
    on_guard; injection Hrun as <- _.
    + split; [assumption |]. simpl.
      apply nonneg_powers_update; [reflexivity | assumption].
    + split; assumption.
  - unfold V1.executeReboot in Hrun. cbv zeta in Hrun.
    on_guard;
      injection Hrun as <- _.
    + split; simpl; [lra | apply nonneg_powers_zeroed; assumption].
    + split; assumption.
Qed.

Lemma V2_valid_run (o : V2.operation) (g g' : V2.GameEngine) :
  V2_valid g -> V2.run o g = Some g' -> V2_valid g'.
Proof.
  intros [Hc Hl] Hrun. destruct o as [now | | i |]; simpl in Hrun.
  - injection Hrun as <-. split; assumption.
  - injection Hrun as <-. split; assumption.
  - unfold V2.buyUpgrade in Hrun.
    destruct (find_upgrade i (V2.upgrades g)) as [u |]; [| discriminate].
    cbv zeta in Hrun.
    on_guard; injection Hrun as <-.
    + split; [assumption |]. simpl.
      apply nonneg_powers_update; [reflexivity | assumption].
    + split; assumption.
  - unfold V2.executeReboot in Hrun. cbv zeta in Hrun.
    on_guard;
      injection Hrun as <-.
    + split; simpl; [lra | apply nonneg_powers_zeroed; assumption].
    + split; assumption.
Qed.

Lemma V1_flux_nonneg_run (o : V1.operation) (g g' : V1.GameEngine)
      (cs : list V1.call) :
  V1_valid g -> 0 <= V1.flux g -> V1_clock_ok o g ->
  V1.run o g = Some (g', cs) -> 0 <= V1.flux g'.
Proof.
  intros Hv Hf Hclock Hrun. destruct o as [now | | i |]; simpl in Hrun.
  - injection Hrun as <- _. simpl in Hclock.
    pose proof (V1_rate_nonneg g Hv). pose proof (V1_delta_nonneg now g Hclock).
    change (0 <= V1.flux g + V1.getRate g * V1.delta now g). nra.
  - injection Hrun as <- _. destruct Hv as [Hc _]. simpl. lra.
  - unfold V1.buyUpgrade in Hrun.
    destruct (find_upgrade i (V1.upgrades g)) as [u |]; [| discriminate].
    cbv zeta in Hrun.
    on_guard; injection Hrun as <- _.
    + simpl. lra.
    + assumption.
  - unfold V1.executeReboot in Hrun. cbv zeta in Hrun.
    on_guard;
      injection Hrun as <- _.
    + simpl. lra.
    + assumption.
Qed.

Lemma V2_flux_nonneg_run (o : V2.operation) (g g' : V2.GameEngine) :
  V2_valid g -> 0 <= V2.flux g -> V2_clock_ok o g ->
  V2.run o g = Some g' -> 0 <= V2.flux g'.
Proof.
  intros Hv Hf Hclock Hrun. destruct o as [now | | i |]; simpl in Hrun.
  - injection Hrun as <-. simpl in Hclock.
    pose proof (V2_rate_nonneg g Hv). pose proof (V2_delta_nonneg now g Hclock).
    change (0 <= V2.flux g + V2.getRate g * V2.delta now g). nra.
  - injection Hrun as <-. simpl.
    pose proof (Math_pow_pos (V2.coherence g) 1.5). lra.
  - unfold V2.buyUpgrade in Hrun.
    destruct (find_upgrade i (V2.upgrades g)) as [u |]; [| discriminate].
    cbv zeta in Hrun.
    on_guard; injection Hrun as <-.
    + simpl. lra.
    + assumption.
  - unfold V2.executeReboot in Hrun. cbv zeta in Hrun.
    on_guard;
      injection Hrun as <-.
    + simpl. lra.
    + assumption.
Qed.




(** *** Saving *)

Lemma saveGame_saves (g : V1.GameEngine) :
  existsb is_save (snd (V1.saveGame g)) = true.
Proof. reflexivity. Qed.

(** C9 does not hold of the code: [saveGame] is never called, so no tick,
    collect, purchase or reboot writes the save. *)
Theorem no_operation_saves (o : V1.operation) (g : V1.GameEngine) :
  triggers_save o g = false.
Proof.
  unfold triggers_save. destruct o as [now | | i |]; simpl; try reflexivity.
  - unfold V1.buyUpgrade.
    destruct (find_upgrade i (V1.upgrades g)) as [u |]; [| reflexivity].
    cbv zeta. on_guard; reflexivity.
  - unfold V1.executeReboot. cbv zeta.
    on_guard; reflexivity.
Qed.

(** *** Loading *)

(** C8 does not hold of the code: a save without [upgrades] makes
    [loadGame] throw a TypeError at [data.upgrades.forEach], after the four
    numbers were read. *)
Theorem loadGame_without_upgrades_throws :
  V1.loadGame (Json (JObj [("flux"%string, JNum 5)])) (V1.constructor 0)
  = Thrown TypeError.
Proof. reflexivity. Qed.

(** Whenever the parsed save is an object without [upgrades], [loadGame]
    does not return an engine. *)
Lemma loadGame_needs_upgrades (m : list (string * json)) (g g' : V1.GameEngine) :
  assoc "upgrades" m = None -> V1.loadGame (Json (JObj m)) g <> Returned g'.
Proof.
  intros Hm. simpl. rewrite Hm.
  destruct (number_or (assoc "flux" m) 0); simpl; try discriminate.
  destruct (number_or (assoc "totalFlux" m) 0); simpl; try discriminate.
  destruct (number_or (assoc "coherence" m) 1.0); simpl; try discriminate.
  destruct (counter_or (assoc "rebootCount" m) 0); simpl; discriminate.
Qed.

Lemma loadGame_null_throws (g : V1.GameEngine) :
  V1.loadGame (Json JNull) g = Thrown TypeError.
Proof. reflexivity. Qed.

Lemma loadGame_malformed_throws (g : V1.GameEngine) :
  V1.loadGame Malformed g = Thrown SyntaxError.
Proof. reflexivity. Qed.

(** What does hold: with [upgrades] an array, the four numbers that are
    missing get their defaults, *)
Lemma loadGame_defaults (g : V1.GameEngine) :
  V1.loadGame (Json (JObj [("upgrades"%string, JArr [])])) g
  = Returned (V1.mkGame 0 0 1.0 0 (V1.upgrades g) (V1.lastTick g)).
Proof. reflexivity. Qed.

(** an entry whose id no upgrade has is skipped, *)
Lemma load_entry_unknown_id (i : string) (m : list (string * json))
      (l : list upgrade) :
  assoc "id" m = Some (JStr i) -> find_upgrade i l = None ->
  V1.load_entry (JObj m) l = Returned l.
Proof. intros Hi Hf. unfold V1.load_entry. simpl. rewrite Hi, Hf. reflexivity. Qed.

Lemma Q_to_nat_of_nat (n : nat) : Q_to_nat (inject_Z (Z.of_nat n)) = Some n.
Proof.
  unfold Q_to_nat, inject_Z, Qred.
  pose proof (Z.ggcd_gcd (Z.of_nat n) 1) as Hg.
  pose proof (Z.ggcd_correct_divisors (Z.of_nat n) 1) as Hd.
  destruct (Z.ggcd (Z.of_nat n) 1) as [d [a b]]. simpl in *.
  rewrite Z.gcd_1_r in Hg. subst d. destruct Hd as [Ha Hb].
  assert (a = Z.of_nat n) by lia. assert (b = 1%Z) by lia. subst a b.
  simpl. destruct (Z.leb_spec 0 (Z.of_nat n)); [| lia].
  rewrite Nat2Z.id. reflexivity.
Qed.

(** and an entry for a known id sets the count of that upgrade. *)
Lemma load_entry_known_id (i : string) (n : nat) (l : list upgrade)
      (u : upgrade) :
  find_upgrade i l = Some u ->
  V1.load_entry (JObj [("id"%string, JStr i); ("count"%string, JNum (inject_Z (Z.of_nat n)))]) l
  = Returned (update_found i (set_count n) l).
Proof.
  intros Hf. pose proof (Q_to_nat_of_nat n) as Hn.
  remember (inject_Z (Z.of_nat n)) as q.
  unfold V1.load_entry. simpl. rewrite Hf. simpl. rewrite Hn. reflexivity.
Qed.

(** *** Along a play session *)

Lemma V1_reachable_invariant (g : V1.GameEngine) :
  V1_reachable g -> V1_valid g /\ 0 <= V1.flux g.
Proof.
  induction 1 as [now | o g g' cs Hr [Hv Hf] Hclock Hrun].
  - split; [apply V1_valid_constructor | simpl; lra].
  - split.
    + exact (V1_valid_run o g g' cs Hv Hrun).
    + exact (V1_flux_nonneg_run o g g' cs Hv Hf Hclock Hrun).
Qed.

Lemma V2_reachable_invariant (g : V2.GameEngine) :
  V2_reachable g -> V2_valid g /\ 0 <= V2.flux g.
Proof.
  induction 1 as [now | o g g' Hr [Hv Hf] Hclock Hrun].
  - split; [apply V2_valid_constructor | simpl; lra].
  - split.
    + exact (V2_valid_run o g g' Hv Hrun).
    + exact (V2_flux_nonneg_run o g g' Hv Hf Hclock Hrun).
Qed.

(** ** Further properties of the code *)

(** *** The rate *)

Lemma V1_rate_fold (l : list upgrade) (acc : R * R) :
  fold_left V1.getRate_step l acc =
  (fst acc + additive_sum l, snd acc * V1_mult_product l).
Proof.
  revert acc. induction l as [| u r IH]; intros [b m]; simpl.
  - f_equal; ring.
  - rewrite IH. unfold V1.getRate_step.
    destruct (no_type u); [| destruct (type_is_mult u)]; simpl; f_equal; ring.
Qed.

Lemma V2_rate_fold (l : list upgrade) (acc : R * R) :
  fold_left V2.getRate_step l acc =
  (fst acc + additive_sum l, snd acc * V2_mult_product l).
Proof.
  revert acc. induction l as [| u r IH]; intros [b m]; simpl.
  - f_equal; ring.
  - rewrite IH. unfold V2.getRate_step.
    destruct (no_type u); simpl; f_equal; ring.
Qed.

Lemma V1_rate_formula (g : V1.GameEngine) :
  V1.getRate g =
  additive_sum (V1.upgrades g) * V1_mult_product (V1.upgrades g) * V1.coherence g.
Proof. unfold V1.getRate. cbv zeta. rewrite V1_rate_fold. simpl. ring. Qed.

Lemma V2_rate_formula (g : V2.GameEngine) :
  V2.getRate g =
  additive_sum (V2.upgrades g) * V2_mult_product (V2.upgrades g) * V2.coherence g.
Proof. unfold V2.getRate. cbv zeta. rewrite V2_rate_fold. simpl. ring. Qed.

(** X1: what the [forEach] of [getRate] accumulates is the sum of
    [count * power] over the upgrades without a type and the product of
    [power ^ count] over the multiplicative ones; [getRate ()] is that sum
    times that product times [coherence], in both engines. *)
Theorem rate_is_sum_times_product :
  (forall g : V1.GameEngine,
      V1.getRate g =
      additive_sum (V1.upgrades g) * V1_mult_product (V1.upgrades g)
      * V1.coherence g) /\
  (forall g : V2.GameEngine,
      V2.getRate g =
      additive_sum (V2.upgrades g) * V2_mult_product (V2.upgrades g)
      * V2.coherence g).
Proof. split; [exact V1_rate_formula | exact V2_rate_formula]. Qed.

(** X2: with the counts [n1 .. n4] of the game's four upgrades, the rate of
    the first engine is [(0.5 n1 + 5 n2 + 50 n3) * 2 ^ n4 * coherence] and
    that of the second [(n1 + 10 n2) * 4 ^ n3 * 2.5 ^ n4 * coherence]. *)
Theorem rate_of_the_tables (n1 n2 n3 n4 : nat) :
  (forall g : V1.GameEngine,
      V1.upgrades g = V1_owned n1 n2 n3 n4 ->
      V1.getRate g =
      (0.5 * INR n1 + 5 * INR n2 + 50 * INR n3) * 2 ^ n4 * V1.coherence g) /\
  (forall g : V2.GameEngine,
      V2.upgrades g = V2_owned n1 n2 n3 n4 ->
      V2.getRate g =
      (INR n1 + 10 * INR n2) * (4 ^ n3 * 2.5 ^ n4) * V2.coherence g).
Proof.
  split; intros g Hu.
  - rewrite V1_rate_formula, Hu. simpl.
    replace (5.0) with 5 by lra. replace (50.0) with 50 by lra.
    replace (2.0) with 2 by lra. ring.
  - rewrite V2_rate_formula, Hu. simpl.
    replace (1.0) with 1 by lra. replace (10.0) with 10 by lra.
    replace (4.0) with 4 by lra. ring.
Qed.

Lemma rate_of_the_tables_witness :
  V1.getRate V1_running = (0.5 * INR 1 + 5 * INR 0 + 50 * INR 0) * 2 ^ 0 * 1 /\
  V2.getRate V2_funded = (INR 0 + 10 * INR 0) * (4 ^ 0 * 2.5 ^ 0) * 1.
Proof.
  split.
  - apply (proj1 (rate_of_the_tables 1 0 0 0) V1_running). reflexivity.
  - apply (proj2 (rate_of_the_tables 0 0 0 0) V2_funded). reflexivity.
Defined.

Lemma additive_sum_none_owned (l : list upgrade) :
  Forall (fun u => count u = 0%nat) l -> additive_sum l = 0.
Proof.
  induction 1 as [| u r Hu Hr IH]; simpl; [reflexivity |].
  rewrite IH, Hu. destruct (no_type u); simpl; ring.
Qed.

Lemma V1_rate_none_owned (g : V1.GameEngine) :
  Forall (fun u => count u = 0%nat) (V1.upgrades g) -> V1.getRate g = 0.
Proof.
  intros H. rewrite V1_rate_formula, (additive_sum_none_owned _ H). ring.
Qed.

Lemma V2_rate_none_owned (g : V2.GameEngine) :
  Forall (fun u => count u = 0%nat) (V2.upgrades g) -> V2.getRate g = 0.
Proof.
  intros H. rewrite V2_rate_formula, (additive_sum_none_owned _ H). ring.
Qed.

(** X3: while no upgrade is owned the rate is 0, whatever the coherence, and
    a tick, whatever the time elapsed, leaves [flux] and [totalFlux] as they
    are: after a reboot only clicking yields Flux. *)
Theorem nothing_owned_nothing_gained :
  (forall (g : V1.GameEngine) (now : Z),
      Forall (fun u => count u = 0%nat) (V1.upgrades g) ->
      V1.getRate g = 0 /\
      V1.flux (fst (V1.tick now g)) = V1.flux g /\
      V1.totalFlux (fst (V1.tick now g)) = V1.totalFlux g) /\
  (forall (g : V2.GameEngine) (now : Z),
      Forall (fun u => count u = 0%nat) (V2.upgrades g) ->
      V2.getRate g = 0 /\
      V2.flux (V2.animate now g) = V2.flux g /\
      V2.totalFlux (V2.animate now g) = V2.totalFlux g).
Proof.
  split; intros g now H.
  - pose proof (V1_rate_none_owned g H) as Hr.
    destruct (V1_tick_adds now g) as [Hf Ht]. rewrite Hf, Ht, Hr.
    repeat split; ring.
  - pose proof (V2_rate_none_owned g H) as Hr.
    destruct (V2_animate_adds now g) as [Hf Ht]. rewrite Hf, Ht, Hr.
    repeat split; ring.
Qed.

Lemma nothing_owned_nothing_gained_witness :
  V1.flux (fst (V1.tick 5000 (fst (V1.executeReboot V1_ready)))) =
  V1.flux (fst (V1.executeReboot V1_ready)) /\
  V2.flux (V2.animate 5000 (V2.executeReboot V2_ready)) =
  V2.flux (V2.executeReboot V2_ready).
Proof.
  split.
  - apply (proj1 nothing_owned_nothing_gained).
    rewrite (V1_reboot_done V1_ready V1_ready_meets). apply counts_zeroed.
  - apply (proj2 nothing_owned_nothing_gained).
    rewrite (V2_reboot_done V2_ready V2_ready_meets). apply counts_zeroed.
Defined.

Lemma additive_sum_nonneg (l : list upgrade) :
  boosting l -> 0 <= additive_sum l.
Proof.
  induction 1 as [| u r Hu Hr IH]; simpl; [lra |].
  destruct (no_type u); [| lra].
  pose proof (pos_INR (count u)). nra.
Qed.

Lemma additive_sum_bought (i : string) (l : list upgrade) :
  boosting l ->
  additive_sum l <= additive_sum (update_found i incr_count l).
Proof.
  induction 1 as [| u r Hu Hr IH]; cbn [update_found additive_sum]; [lra |].
  destruct (String.eqb (id u) i); cbn [additive_sum]; [| lra].
  change (no_type (incr_count u)) with (no_type u).
  destruct (no_type u); [| lra].
  change (count (incr_count u)) with (S (count u)). rewrite S_INR.
  change (power (incr_count u)) with (power u). nra.
Qed.

Lemma V1_mult_product_ge_1 (l : list upgrade) :
  boosting l -> 1 <= V1_mult_product l.
Proof.
  induction 1 as [| u r Hu Hr IH]; simpl; [lra |].
  destruct (no_type u); [lra |].
  destruct (type_is_mult u); [| lra].
  pose proof (pow_R1_Rle (power u) (count u) Hu). nra.
Qed.

Lemma V2_mult_product_ge_1 (l : list upgrade) :
  boosting l -> 1 <= V2_mult_product l.
Proof.
  induction 1 as [| u r Hu Hr IH]; simpl; [lra |].
  destruct (no_type u); [lra |].
  pose proof (pow_R1_Rle (power u) (count u) Hu). nra.
Qed.

Lemma V1_mult_product_bought (i : string) (l : list upgrade) :
  boosting l ->
  V1_mult_product l <= V1_mult_product (update_found i incr_count l).
Proof.
  induction 1 as [| u r Hu Hr IH];
    cbn [update_found V1_mult_product]; [lra |].
  pose proof (V1_mult_product_ge_1 r Hr) as Hp.
  destruct (String.eqb (id u) i); cbn [V1_mult_product].
  - change (no_type (incr_count u)) with (no_type u).
    change (type_is_mult (incr_count u)) with (type_is_mult u).
    destruct (no_type u); [lra |]. destruct (type_is_mult u); [| lra].
    change (count (incr_count u)) with (S (count u)).
    change (power (incr_count u)) with (power u). cbn [pow].
    pose proof (pow_R1_Rle (power u) (count u) Hu) as Hn.
    rewrite (Rmult_assoc (power u)).
    rewrite <- (Rmult_1_l (power u ^ count u * _)) at 1.
    apply Rmult_le_compat_r; [nra | lra].
  - destruct (no_type u); [lra |]. destruct (type_is_mult u); [| lra].
    pose proof (pow_R1_Rle (power u) (count u) Hu). nra.
Qed.

Lemma V2_mult_product_bought (i : string) (l : list upgrade) :
  boosting l ->
  V2_mult_product l <= V2_mult_product (update_found i incr_count l).
Proof.
  induction 1 as [| u r Hu Hr IH];
    cbn [update_found V2_mult_product]; [lra |].
  pose proof (V2_mult_product_ge_1 r Hr) as Hp.
  destruct (String.eqb (id u) i); cbn [V2_mult_product].
  - change (no_type (incr_count u)) with (no_type u).
    destruct (no_type u); [lra |].
    change (count (incr_count u)) with (S (count u)).
    change (power (incr_count u)) with (power u). cbn [pow].
    pose proof (pow_R1_Rle (power u) (count u) Hu) as Hn.
    rewrite (Rmult_assoc (power u)).
    rewrite <- (Rmult_1_l (power u ^ count u * _)) at 1.
    apply Rmult_le_compat_r; [nra | lra].
  - destruct (no_type u); [lra |].
    pose proof (pow_R1_Rle (power u) (count u) Hu). nra.
Qed.

Lemma boosting_tables :
  boosting V1.initial_upgrades /\ boosting V2.initial_upgrades.
Proof. split; repeat constructor; simpl; lra. Qed.

(** X4: where no additive power is negative, no multiplicative power is
    below 1 and the coherence is not negative, a purchase never lowers the
    rate. *)
Theorem purchase_never_lowers_rate (i : string) :
  (forall (g g' : V1.GameEngine) (cs : list V1.call),
      boosting (V1.upgrades g) -> 0 <= V1.coherence g ->
      V1.buyUpgrade i g = Some (g', cs) -> V1.getRate g <= V1.getRate g') /\
  (forall g g' : V2.GameEngine,
      boosting (V2.upgrades g) -> 0 <= V2.coherence g ->
      V2.buyUpgrade i g = Some g' -> V2.getRate g <= V2.getRate g').
Proof.
  split.
  - intros g g' cs Hb Hc Hbuy. unfold V1.buyUpgrade in Hbuy.
    destruct (find_upgrade i (V1.upgrades g)) as [u |]; [| discriminate].
    cbv zeta in Hbuy. on_guard; injection Hbuy as <- _; [| lra].
    rewrite !V1_rate_formula. simpl.
    pose proof (additive_sum_nonneg _ Hb).
    pose proof (additive_sum_bought i _ Hb).
    pose proof (V1_mult_product_ge_1 _ Hb).
    pose proof (V1_mult_product_bought i _ Hb).
    apply Rmult_le_compat_r; [assumption |].
    apply Rmult_le_compat; lra.
  - intros g g' Hb Hc Hbuy. unfold V2.buyUpgrade in Hbuy.
    destruct (find_upgrade i (V2.upgrades g)) as [u |]; [| discriminate].
    cbv zeta in Hbuy. on_guard; injection Hbuy as <-; [| lra].
    rewrite !V2_rate_formula. simpl.
    pose proof (additive_sum_nonneg _ Hb).
    pose proof (additive_sum_bought i _ Hb).
    pose proof (V2_mult_product_ge_1 _ Hb).
    pose proof (V2_mult_product_bought i _ Hb).
    apply Rmult_le_compat_r; [assumption |].
    apply Rmult_le_compat; lra.
Qed.

Lemma purchase_never_lowers_rate_witness :
  V1.getRate V1_funded <=
  V1.getRate (V1.mkGame (10 - 10 * 1.15 ^ 0) 10 1 0
                (update_found "u1" incr_count V1.initial_upgrades) 0) /\
  V2.getRate V2_funded <=
  V2.getRate (V2.mkGame (15 - 15 * 1.15 ^ 0) 15 1 0 1e15 1e15 0
                (update_found "u1" incr_count V2.initial_upgrades) 0 1e-9 true).
Proof.
  split.
  - apply (proj1 (purchase_never_lowers_rate "u1") V1_funded _
                 [V1.Notify; V1.RenderUpgrades; V1.UpdateUI]).
    + apply boosting_tables.
    + simpl. lra.
    + unfold V1.buyUpgrade. simpl. unfold getCost. simpl.
      destruct (Rle_dec (10 * 1) 10); [reflexivity | lra].
  - apply (proj2 (purchase_never_lowers_rate "u1") V2_funded).
    + apply boosting_tables.
    + simpl. lra.
    + unfold V2.buyUpgrade. simpl. unfold getCost. simpl.
      destruct (Rle_dec (15 * 1) 15); [reflexivity | lra].
Defined.

(** *** Reboots do not chain *)

Lemma V1_rebooted_below (g : V1.GameEngine) :
  V1.getRebootRequirement g <= V1.flux g ->
  V1.flux (fst (V1.executeReboot g)) <
  V1.getRebootRequirement (fst (V1.executeReboot g)).
Proof.
  intros H. rewrite (V1_reboot_done g H). simpl. apply Math_pow_pos.
Qed.

Lemma V2_rebooted_below (g : V2.GameEngine) :
  V2.getRebootRequirement g <= V2.flux g ->
  V2.flux (V2.executeReboot g) < V2.getRebootRequirement (V2.executeReboot g).
Proof.
  intros H. rewrite (V2_reboot_done g H). simpl. apply Math_pow_pos.
Qed.

(** X7: a second [executeReboot ()] right after a first changes nothing
    more, whether the first went through or not: reboots cannot be chained
    without earning the next requirement. *)
Theorem reboot_twice_is_reboot_once :
  (forall g : V1.GameEngine,
      fst (V1.executeReboot (fst (V1.executeReboot g))) =
      fst (V1.executeReboot g)) /\
  (forall g : V2.GameEngine,
      V2.executeReboot (V2.executeReboot g) = V2.executeReboot g).
Proof.
  split; intros g.
  - destruct (Rle_lt_dec (V1.getRebootRequirement g) (V1.flux g)) as [H | H].
    + rewrite (V1_reboot_declined _ (V1_rebooted_below g H)). reflexivity.
    + rewrite (V1_reboot_declined g H). simpl.
      rewrite (V1_reboot_declined g H). reflexivity.
  - destruct (Rle_lt_dec (V2.getRebootRequirement g) (V2.flux g)) as [H | H].
    + apply V2_reboot_declined, V2_rebooted_below, H.
    + rewrite (V2_reboot_declined g H). apply V2_reboot_declined, H.
Qed.



(** *** What a play session keeps *)

Lemma same_definitions_update (i : string) (f : upgrade -> upgrade)
      (l : list upgrade) :
  (forall v, set_count 0 (f v) = set_count 0 v) ->
  same_definitions (update_found i f l) l.
Proof.
  intros Hf. unfold same_definitions.
  induction l as [| u r IH]; simpl; [reflexivity |].
  destruct (String.eqb (id u) i); simpl.
  - rewrite Hf. reflexivity.
  - rewrite IH. reflexivity.
Qed.

Lemma same_definitions_zeroed (l : list upgrade) :
  same_definitions (map (set_count 0) l) l.
Proof.
  unfold same_definitions. rewrite map_map. reflexivity.
Qed.

Lemma same_definitions_trans (l1 l2 l3 : list upgrade) :
  same_definitions l1 l2 -> same_definitions l2 l3 -> same_definitions l1 l3.
Proof. unfold same_definitions. congruence. Qed.

Lemma same_definitions_ids (l l' : list upgrade) :
  same_definitions l l' -> map id l = map id l'.
Proof.
  unfold same_definitions. intros H.
  assert (E : forall k, map id (map (set_count 0) k) = map id k)
    by (intros k; rewrite map_map; reflexivity).
  rewrite <- (E l), <- (E l'), H. reflexivity.
Qed.

Lemma same_definitions_priced (l l' : list upgrade) (u : upgrade) :
  same_definitions l l' -> Forall priced l' -> In u l -> priced u.
Proof.
  unfold same_definitions. intros H Hp Hu.
  apply (in_map (set_count 0)) in Hu. rewrite H in Hu.
  apply in_map_iff in Hu. destruct Hu as (u' & He & Hu').
  rewrite Forall_forall in Hp. specialize (Hp u' Hu').
  unfold priced in *.
  replace (baseCost u) with (baseCost (set_count 0 u)) by reflexivity.
  replace (costMult u) with (costMult (set_count 0 u)) by reflexivity.
  rewrite <- He. exact Hp.
Qed.

Lemma priced_cost_pos (u : upgrade) : priced u -> 0 < getCost u.
Proof.
  intros [Hb Hm]. unfold getCost.
  apply Rmult_lt_0_compat; [assumption | apply pow_lt; lra].
Qed.

Lemma find_upgrade_In (i : string) (l : list upgrade) (u : upgrade) :
  find_upgrade i l = Some u -> In u l.
Proof. unfold find_upgrade. intros H. apply find_some in H. tauto. Qed.

Lemma tables_priced :
  Forall priced V1.initial_upgrades /\ Forall priced V2.initial_upgrades.
Proof.
  split; apply Forall_forall; intros u Hu; apply priced_tables; tauto.
Qed.

(** What the first engine keeps along a session. *)
Lemma V1_session (g : V1.GameEngine) :
  V1_reachable g ->
  same_definitions (V1.upgrades g) V1.initial_upgrades /\
  V1.coherence g = 1 + INR (V1.rebootCount g) /\
  0 <= V1.flux g <= V1.totalFlux g.
Proof.
  induction 1 as [now | o g g' cs Hr (Hd & Hc & Hf) Hclock Hrun].
  - split; [reflexivity | simpl; lra].
  - destruct o as [now | | i |]; simpl in Hrun.
    + assert (Hg : g' = fst (V1.tick now g))
        by (injection Hrun as <- _; reflexivity).
      subst g'. simpl in Hclock.
      pose proof (V1_reachable_invariant g Hr) as [Hv _].
      pose proof (V1_rate_nonneg g Hv).
      pose proof (V1_delta_nonneg now g Hclock).
      destruct (V1_tick_adds now g) as [Ef Et].
      split; [exact Hd | split; [exact Hc |]].
      rewrite Ef, Et. nra.
    + injection Hrun as <- _. pose proof (pos_INR (V1.rebootCount g)).
      repeat split; try assumption; simpl; lra.
    + unfold V1.buyUpgrade in Hrun.
      destruct (find_upgrade i (V1.upgrades g)) as [u |] eqn:Hu; [| discriminate].
      cbv zeta in Hrun. on_guard; injection Hrun as <- _; [| tauto].
      assert (0 < getCost u).
      { apply priced_cost_pos.
        apply (same_definitions_priced _ _ u Hd); [apply tables_priced |].
        apply find_upgrade_In with i. exact Hu. }
      repeat split; try assumption; simpl; try lra.
      eapply same_definitions_trans; [| exact Hd].
      apply same_definitions_update. reflexivity.
    + unfold V1.executeReboot in Hrun. cbv zeta in Hrun.
      on_guard; injection Hrun as <- _; [| tauto].
      split; [| split].
      * cbn [V1.upgrades]. eapply same_definitions_trans; [| exact Hd].
        apply same_definitions_zeroed.
      * cbn [V1.coherence V1.rebootCount]. rewrite S_INR, Hc. ring.
      * cbn [V1.flux V1.totalFlux]. lra.
Qed.

Lemma Math_pow_10_15 (x : R) : x = 15 -> Math_pow 10 x = 1e15.
Proof.
  intros ->. unfold Math_pow.
  replace 15 with (INR 15) by (simpl; lra).
  rewrite Rpower_pow by lra. lra.
Qed.

Lemma V2_target_at_least (g : V2.GameEngine) :
  1 <= V2.coherence g -> 1e15 <= V2.getZenithTarget g.
Proof.
  intros H. rewrite <- (Math_pow_10_15 15 eq_refl).
  unfold V2.getZenithTarget, Math_pow. apply Rle_Rpower; lra.
Qed.

Lemma V1_target_at_least (g : V1.GameEngine) :
  1 <= V1.coherence g -> 1e15 <= V1.getZenithTarget g.
Proof.
  intros H. rewrite <- (Math_pow_10_15 15 eq_refl).
  unfold V1.getZenithTarget, Math_pow. apply Rle_Rpower; lra.
Qed.

(** What the second engine keeps along a session. *)
Lemma V2_session (g : V2.GameEngine) :
  V2_reachable g ->
  same_definitions (V2.upgrades g) V2.initial_upgrades /\
  V2.coherence g = 1 + INR (V2.reboots g) /\
  0 <= V2.flux g <= V2.totalFlux g /\
  V2.epsilon g = 1e-9 /\
  V2.baseDistance g = V2.getZenithTarget g /\
  1e5 <= V2.distance g <= V2.baseDistance g /\
  0 <= V2.velocity g.
Proof.
  induction 1 as [now | o g g' Hr (Hd & Hc & Hf & He & Hb & Hdist & Hvel)
                           Hclock Hrun].
  - repeat split; try reflexivity; try (simpl; lra).
    symmetry. apply Math_pow_10_15. simpl. lra.
  - pose proof (V2_reachable_invariant g Hr) as [Hv _].
    pose proof (pos_INR (V2.reboots g)) as Hn.
    destruct o as [now | | i |]; simpl in Hrun.
    + injection Hrun as <-. simpl in Hclock.
      pose proof (V2_rate_nonneg g Hv) as Hrate.
      pose proof (V2_delta_nonneg now g Hclock) as Hdelta.
      destruct (V2_animate_adds now g) as [Ef Et].
      assert (Hclose : 0 <= V2.getRate g * 10 * V2.epsilon g * V2.delta now g).
      { rewrite He. apply Rmult_le_pos; [| assumption].
        apply Rmult_le_pos; lra. }
      assert (Htarget : 1e15 <= V2.getZenithTarget g)
        by (apply V2_target_at_least; lra).
      split; [exact Hd | split; [exact Hc |]].
      split; [rewrite Ef, Et; nra |].
      split; [exact He | split; [exact Hb |]].
      split.
      * unfold V2.animate. cbv zeta.
        cbn [V2.distance V2.baseDistance V2.addFlux].
        destruct (Rlt_dec _ 1e5); lra.
      * unfold V2.animate. cbv zeta. cbn [V2.velocity]. lra.
    + injection Hrun as <-.
      pose proof (Math_pow_pos (V2.coherence g) 1.5).
      repeat split; try assumption; simpl; lra.
    + unfold V2.buyUpgrade in Hrun.
      destruct (find_upgrade i (V2.upgrades g)) as [u |] eqn:Hu; [| discriminate].
      cbv zeta in Hrun. on_guard; injection Hrun as <-; [| tauto].
      assert (0 < getCost u).
      { apply priced_cost_pos.
        apply (same_definitions_priced _ _ u Hd); [apply tables_priced |].
        apply find_upgrade_In with i. exact Hu. }
      repeat split; try assumption; simpl; try lra.
      eapply same_definitions_trans; [| exact Hd].
      apply same_definitions_update. reflexivity.
    + unfold V2.executeReboot in Hrun. cbv zeta in Hrun.
      on_guard; injection Hrun as <-; [| tauto].
      assert (Htarget : 1e15 <= V2.getZenithTarget (V2.rebooted g)).
      { apply V2_target_at_least. simpl. lra. }
      split; [| split; [| split; [| split; [| split; [| split]]]]].
      * cbn [V2.upgrades V2.rebooted].
        eapply same_definitions_trans; [| exact Hd].
        apply same_definitions_zeroed.
      * cbn [V2.coherence V2.reboots V2.rebooted]. rewrite S_INR, Hc. ring.
      * cbn [V2.flux V2.totalFlux V2.rebooted]. lra.
      * exact He.
      * reflexivity.
      * cbn [V2.distance V2.baseDistance]. lra.
      * exact Hvel.
Qed.

(** What [loadGame] leaves of the upgrades. *)
Lemma bind_returned {A B : Type} (x : outcome A) (k : A -> outcome B) (b : B) :
  bind x k = Returned b -> exists a, x = Returned a /\ k a = Returned b.
Proof.
  destruct x as [a | e |]; simpl; try discriminate.
  intros H. exists a. split; [reflexivity | exact H].
Qed.

Lemma load_entry_definitions (su : json) (l l' : list upgrade) :
  V1.load_entry su l = Returned l' -> same_definitions l' l.
Proof.
  unfold V1.load_entry. intros H.
  apply bind_returned in H. destruct H as (i & _ & H).
  destruct i as [[| | | s | |] |]; try (injection H as <-; reflexivity).
  destruct (find_upgrade s l); [| injection H as <-; reflexivity].
  apply bind_returned in H. destruct H as (c & _ & H).
  destruct c as [[| | q | | |] |]; try discriminate.
  destruct (Q_to_nat q); [| discriminate]. injection H as <-.
  apply same_definitions_update. reflexivity.
Qed.

Lemma load_entries_definitions (sus : list json) (l l' : list upgrade) :
  V1.load_entries sus l = Returned l' -> same_definitions l' l.
Proof.
  revert l. induction sus as [| su r IH]; simpl; intros l H.
  - injection H as <-. reflexivity.
  - apply bind_returned in H. destruct H as (l1 & H1 & H).
    eapply same_definitions_trans; [exact (IH _ H) |].
    exact (load_entry_definitions _ _ _ H1).
Qed.

Lemma number_or_nonzero (v : option json) (d x : R) :
  d <> 0 -> number_or v d = Returned x -> x <> 0.
Proof.
  unfold number_or. intros Hd.
  destruct (truthy v) eqn:Ht; [| intros H; injection H as <-; exact Hd].
  destruct v as [[| | q | | |] |]; try discriminate.
  intros H. injection H as <-. simpl in Ht.
  apply negb_true_iff in Ht. intros H0.
  apply Qeq_bool_neq in Ht. apply Ht.
  apply eqR_Qeq. rewrite H0. symmetry. apply RMicromega.Q2R_0.
Qed.

Lemma V1_loadGame_returned (saved : item) (g g' : V1.GameEngine) :
  V1.loadGame saved g = Returned g' ->
  same_definitions (V1.upgrades g') (V1.upgrades g) /\
  V1.lastTick g' = V1.lastTick g.
Proof.
  destruct saved as [| | | data]; simpl; try discriminate;
    try (intros H; injection H as <-; split; reflexivity).
  intros H.
  apply bind_returned in H. destruct H as (v1 & _ & H).
  apply bind_returned in H. destruct H as (f & _ & H).
  apply bind_returned in H. destruct H as (v2 & _ & H).
  apply bind_returned in H. destruct H as (t & _ & H).
  apply bind_returned in H. destruct H as (v3 & _ & H).
  apply bind_returned in H. destruct H as (c & _ & H).
  apply bind_returned in H. destruct H as (v4 & _ & H).
  apply bind_returned in H. destruct H as (r & _ & H).
  apply bind_returned in H. destruct H as (v5 & _ & H).
  apply bind_returned in H. destruct H as (l & Hl & H).
  injection H as <-. simpl. split; [| reflexivity].
  unfold V1.load_upgrades in Hl.
  destruct v5 as [[| | | | sus |] |]; try discriminate.
  exact (load_entries_definitions _ _ _ Hl).
Qed.

Lemma V1_collect_reachable (g : V1.GameEngine) :
  V1_reachable g -> V1_reachable (fst (V1.collect g)).
Proof.
  intros Hr. apply (V1_reach_step V1.OpCollect g _ (snd (V1.collect g)) Hr I).
  reflexivity.
Qed.

Lemma V2_collect_reachable (g : V2.GameEngine) :
  V2_reachable g -> V2_reachable (V2.collect g).
Proof.
  intros Hr. apply (V2_reach_step V2.OpCollect g _ Hr I). reflexivity.
Qed.

(** With nothing stored, the constructor leaves the field initialisers. *)
Lemma V1_create_nothing_stored (saved : item) (now : Z) (g : V1.GameEngine) :
  nothing_stored saved -> V1.create saved now = Returned g ->
  g = V1.constructor now.
Proof.
  intros [-> | ->] H; unfold V1.create in H; simpl in H;
    injection H as <-; reflexivity.
Qed.

Lemma V1_played_reachable (saved : item) (g : V1.GameEngine) :
  nothing_stored saved -> V1_played saved g -> V1_reachable g.
Proof.
  intros Hs. induction 1 as [now g Hc | o g g' cs Hp IH Hclock Hrun].
  - rewrite (V1_create_nothing_stored saved now g Hs Hc). constructor.
  - exact (V1_reach_step o g g' cs IH Hclock Hrun).
Qed.

Lemma V1_collect_played (saved : item) (g : V1.GameEngine) :
  V1_played saved g -> V1_played saved (fst (V1.collect g)).
Proof.
  intros Hp.
  apply (V1_play_step saved V1.OpCollect g _ (snd (V1.collect g)) Hp I).
  reflexivity.
Qed.

Lemma V1_played_fresh (now : Z) : V1_played Absent (V1.constructor now).
Proof. apply (V1_play_start Absent now). reflexivity. Qed.

(** A stored save starts the engine elsewhere: with a coherence of 3 stored,
    the engine starts at coherence 3 with no reboot counted, and with a flux
    of 5 stored, with more in hand than was ever gained. *)
Lemma V1_create_from_a_save :
  V1.create (Json (JObj [("flux"%string, JNum 5);
                         ("coherence"%string, JNum 3);
                         ("upgrades"%string, JArr [])])) 0
  = Returned (V1.mkGame (Q2R 5) 0 (Q2R 3) 0 V1.initial_upgrades 0).
Proof. reflexivity. Qed.

Lemma V1_run_definitions (o : V1.operation) (g g' : V1.GameEngine)
      (cs : list V1.call) :
  V1.run o g = Some (g', cs) ->
  same_definitions (V1.upgrades g') (V1.upgrades g).
Proof.
  intros Hrun. destruct o as [now | | i |]; simpl in Hrun.
  - injection Hrun as <- _. reflexivity.
  - injection Hrun as <- _. reflexivity.
  - unfold V1.buyUpgrade in Hrun.
    destruct (find_upgrade i (V1.upgrades g)) as [u |]; [| discriminate].
    cbv zeta in Hrun. on_guard; injection Hrun as <- _; [| reflexivity].
    apply same_definitions_update. reflexivity.
  - unfold V1.executeReboot in Hrun. cbv zeta in Hrun.
    on_guard; injection Hrun as <- _; [| reflexivity].
    apply same_definitions_zeroed.
Qed.

(** X9: along a session the coherence is 1 plus the number of reboots: in
    the first engine when nothing was stored at the start (a stored save sets
    the two apart), in the second engine always. *)
Theorem coherence_counts_reboots :
  (forall (saved : item) (g : V1.GameEngine),
      nothing_stored saved -> V1_played saved g ->
      V1.coherence g = 1 + INR (V1.rebootCount g)) /\
  (forall g : V2.GameEngine,
      V2_reachable g -> V2.coherence g = 1 + INR (V2.reboots g)).
Proof.
  split.
  - intros saved g Hs Hp.
    apply (V1_session g (V1_played_reachable saved g Hs Hp)).
  - intros g Hr. apply (V2_session g Hr).
Qed.

Lemma coherence_counts_reboots_witness :
  V1.coherence (fst (V1.collect (V1.constructor 0))) =
    1 + INR (V1.rebootCount (fst (V1.collect (V1.constructor 0)))) /\
  V2.coherence (V2.collect (V2.constructor 0)) =
    1 + INR (V2.reboots (V2.collect (V2.constructor 0))).
Proof.
  split.
  - apply (proj1 coherence_counts_reboots Absent).
    + left. reflexivity.
    + apply V1_collect_played, V1_played_fresh.
  - apply (proj2 coherence_counts_reboots).
    apply V2_collect_reachable. constructor.
Defined.



Lemma V1_played_definitions (saved : item) (g : V1.GameEngine) :
  V1_played saved g ->
  same_definitions (V1.upgrades g) V1.initial_upgrades.
Proof.
  induction 1 as [now g Hc | o g g' cs Hp IH Hclock Hrun].
  - unfold V1.create in Hc.
    exact (proj1 (V1_loadGame_returned saved _ g Hc)).
  - eapply same_definitions_trans; [| exact IH].
    exact (V1_run_definitions o g g' cs Hrun).
Qed.

(** X11: along a session the engine holds the four upgrades of its table, in
    the table's order and with the table's names, costs, powers and types;
    operations, and the [loadGame] of the first engine when it returns with
    whole numbers for the counts it reads, change counts and nothing else of
    an upgrade. *)
Theorem upgrades_keep_their_definitions :
  (forall (saved : item) (g : V1.GameEngine),
      V1_played saved g ->
      same_definitions (V1.upgrades g) V1.initial_upgrades /\
      map id (V1.upgrades g) = ["u1"; "u2"; "u3"; "u4"]%string) /\
  (forall g : V2.GameEngine,
      V2_reachable g ->
      same_definitions (V2.upgrades g) V2.initial_upgrades /\
      map id (V2.upgrades g) = ["u1"; "u2"; "u3"; "u4"]%string).
Proof.
  split.
  - intros saved g Hp. pose proof (V1_played_definitions saved g Hp) as Hd.
    split; [exact Hd |]. rewrite (same_definitions_ids _ _ Hd). reflexivity.
  - intros g Hr. destruct (V2_session g Hr) as [Hd _]. split; [exact Hd |].
    rewrite (same_definitions_ids _ _ Hd). reflexivity.
Qed.

Lemma upgrades_keep_their_definitions_witness :
  map id (update_found "u2" (set_count 3) V1.initial_upgrades) =
    ["u1"; "u2"; "u3"; "u4"]%string /\
  map id (V2.upgrades (V2.collect (V2.constructor 0))) =
    ["u1"; "u2"; "u3"; "u4"]%string.
Proof.
  split.
  - apply (proj1 upgrades_keep_their_definitions
             (Json (JObj [("upgrades"%string,
                           JArr [JObj [("id"%string, JStr "u2");
                                       ("count"%string, JNum 3)]])]))
             (fst (V1.collect
                     (V1.mkGame 0 0 1.0 0
                        (update_found "u2" (set_count 3) V1.initial_upgrades)
                        0)))).
    apply V1_collect_played. apply (V1_play_start _ 0). reflexivity.
  - apply (proj2 upgrades_keep_their_definitions).
    apply V2_collect_reachable. constructor.
Defined.

Lemma find_upgrade_none (i : string) (l : list upgrade) :
  find_upgrade i l = None <-> ~ In i (map id l).
Proof.
  unfold find_upgrade. induction l as [| u r IH]; simpl; [tauto |].
  destruct (String.eqb_spec (id u) i) as [E | E].
  - split; [discriminate | intros H; exfalso; apply H; left; exact E].
  - rewrite IH. tauto.
Qed.

(** X12: along a session (of the first engine: one whose [loadGame] returned
    as in X11) [buyUpgrade(id)] throws, at [getCost(undefined)], exactly for
    the ids other than ['u1'], ['u2'], ['u3'] and ['u4']. *)
Theorem buy_throws_on_unknown_id_only (i : string) :
  (forall (saved : item) (g : V1.GameEngine),
      V1_played saved g ->
      (V1.buyUpgrade i g = None <->
       ~ In i ["u1"; "u2"; "u3"; "u4"]%string)) /\
  (forall g : V2.GameEngine,
      V2_reachable g ->
      (V2.buyUpgrade i g = None <->
       ~ In i ["u1"; "u2"; "u3"; "u4"]%string)).
Proof.
  split.
  - intros saved g Hp. pose proof (V1_played_definitions saved g Hp) as Hd.
    apply same_definitions_ids in Hd. change (map id V1.initial_upgrades)
      with ["u1"; "u2"; "u3"; "u4"]%string in Hd.
    rewrite <- Hd, <- find_upgrade_none. unfold V1.buyUpgrade.
    destruct (find_upgrade i (V1.upgrades g)) as [u |].
    + cbv zeta. on_guard; split; discriminate.
    + tauto.
  - intros g Hr. destruct (V2_session g Hr) as [Hd _].
    apply same_definitions_ids in Hd. change (map id V2.initial_upgrades)
      with ["u1"; "u2"; "u3"; "u4"]%string in Hd.
    rewrite <- Hd, <- find_upgrade_none. unfold V2.buyUpgrade.
    destruct (find_upgrade i (V2.upgrades g)) as [u |].
    + cbv zeta. on_guard; split; discriminate.
    + tauto.
Qed.

Lemma buy_throws_on_unknown_id_only_witness :
  V1.buyUpgrade "u5" (fst (V1.collect (V1.constructor 0))) = None /\
  V2.buyUpgrade "" (V2.collect (V2.constructor 0)) = None.
Proof.
  split.
  - apply (proj1 (buy_throws_on_unknown_id_only "u5") Absent).
    + apply V1_collect_played, V1_played_fresh.
    + simpl. intros [H | [H | [H | [H | []]]]]; discriminate.
  - apply (proj2 (buy_throws_on_unknown_id_only "")).
    + apply V2_collect_reachable. constructor.
    + simpl. intros [H | [H | [H | [H | []]]]]; discriminate.
Defined.

(** *** The distance of the second engine *)



(** X14: with the distance at its floor [1e5] and a coherence of at least 1,
    the raw progress is above the clamp, and the bar of the second engine
    shows exactly [99.9999999]. *)
Theorem clamp_reached_at_the_floor (g : V2.GameEngine) :
  1 <= V2.coherence g -> V2.distance g = 1e5 -> V2.clamped g = 99.9999999.
Proof.
  intros Hc Hd. pose proof (V2_target_at_least g Hc) as Ht.
  unfold V2.clamped, V2.progress. rewrite Hd.
  assert (Hq : 0 < 1e5 / V2.getZenithTarget g <= 1e-10).
  { split.
    - apply Rdiv_lt_0_compat; lra.
    - apply Rmult_le_reg_r with (V2.getZenithTarget g); [lra |].
      unfold Rdiv. rewrite Rmult_assoc, Rinv_l by lra. lra. }
  apply Rmin_right.
  apply Rle_trans with ((1 - 1e5 / V2.getZenithTarget g) * 100); [lra |].
  apply Rmax_r.
Qed.

Lemma clamp_reached_at_the_floor_witness :
  V2.clamped (V2.mkGame 0 0 1 0 1e5 1e15 0 V2.initial_upgrades 0 1e-9 true)
  = 99.9999999.
Proof.
  apply clamp_reached_at_the_floor; simpl; lra.
Defined.

(** *** The requirement against the target *)




(** Below coherence 4.8 it is the other way round. *)
Lemma V1_target_above_requirement (g : V1.GameEngine) :
  V1.coherence g <= 4.8 -> V1.getRebootRequirement g < V1.getZenithTarget g.
Proof.
  intros Hc. unfold V1.getZenithTarget, V1.getRebootRequirement.
  apply Math_pow_10_lt. lra.
Qed.

(** *** What the interface shows against what a click does *)

Lemma find_upgrade_own_id (l : list upgrade) (u : upgrade) :
  NoDup (map id l) -> In u l -> find_upgrade (id u) l = Some u.
Proof.
  unfold find_upgrade. induction l as [| v r IH]; simpl; [tauto |].
  intros Hnd [-> | Hu].
  - rewrite String.eqb_refl. reflexivity.
  - inversion Hnd as [| ? ? Hv Hr]; subst.
    destruct (String.eqb_spec (id v) (id u)) as [E | E].
    + exfalso. apply Hv. rewrite E. apply in_map. exact Hu.
    + apply IH; assumption.
Qed.

Lemma update_found_changes (i : string) (l : list upgrade) (u : upgrade) :
  find_upgrade i l = Some u -> update_found i incr_count l <> l.
Proof.
  unfold find_upgrade. induction l as [| v r IH]; simpl; [discriminate |].
  destruct (String.eqb (id v) i).
  - intros _ H. injection H as H. apply (f_equal count) in H.
    simpl in H. lia.
  - intros Hf H. injection H as H. exact (IH Hf H).
Qed.

Lemma V1_reboot_unchanged_iff (g : V1.GameEngine) :
  V1.rebootEnabled g = false <-> fst (V1.executeReboot g) = g.
Proof.
  unfold V1.rebootEnabled, V1.executeReboot. cbv zeta.
  on_guard; simpl; split; try reflexivity; try discriminate.
  intros H. apply (f_equal V1.coherence) in H. simpl in H. lra.
Qed.

Lemma V2_reboot_unchanged_iff (g : V2.GameEngine) :
  V2.rebootEnabled g = false <-> V2.executeReboot g = g.
Proof.
  unfold V2.rebootEnabled, V2.executeReboot. cbv zeta.
  on_guard; simpl; split; try reflexivity; try discriminate.
  intros H. apply (f_equal V2.coherence) in H. simpl in H. lra.
Qed.

Lemma V1_card_locked_iff (g : V1.GameEngine) (u : upgrade) :
  NoDup (map id (V1.upgrades g)) -> In u (V1.upgrades g) ->
  (V1.cardAvailable g u = false <-> V1.buyUpgrade (id u) g = Some (g, [])).
Proof.
  intros Hnd Hu. unfold V1.cardAvailable, V1.buyUpgrade.
  rewrite (find_upgrade_own_id _ u Hnd Hu). cbv zeta.
  on_guard; split; try reflexivity; discriminate.
Qed.

Lemma V2_card_locked_iff (g : V2.GameEngine) (u : upgrade) :
  NoDup (map id (V2.upgrades g)) -> In u (V2.upgrades g) ->
  (V2.cardAvailable g u = false <-> V2.buyUpgrade (id u) g = Some g).
Proof.
  intros Hnd Hu. unfold V2.cardAvailable, V2.buyUpgrade.
  pose proof (find_upgrade_own_id _ u Hnd Hu) as Hf. rewrite Hf. cbv zeta.
  on_guard; split; try reflexivity; try discriminate.
  intros H. injection H as H. apply (f_equal V2.upgrades) in H. simpl in H.
  exfalso. exact (update_found_changes _ _ _ Hf H).
Qed.

(** X16: the reboot control is shown disabled exactly when
    [executeReboot ()] would leave the engine as it is, in both engines. *)
Theorem reboot_control_matches_reboot :
  (forall g : V1.GameEngine,
      V1.rebootEnabled g = false <-> fst (V1.executeReboot g) = g) /\
  (forall g : V2.GameEngine,
      V2.rebootEnabled g = false <-> V2.executeReboot g = g).
Proof. split; [exact V1_reboot_unchanged_iff | exact V2_reboot_unchanged_iff]. Qed.

(** X17: where no two upgrades share an id, the card of an upgrade is shown
    ['locked'] exactly when [buyUpgrade] with its id would leave the engine
    as it is (and, in the first engine, notify nothing). *)
Theorem card_matches_purchase (u : upgrade) :
  (forall g : V1.GameEngine,
      NoDup (map id (V1.upgrades g)) -> In u (V1.upgrades g) ->
      (V1.cardAvailable g u = false <->
       V1.buyUpgrade (id u) g = Some (g, []))) /\
  (forall g : V2.GameEngine,
      NoDup (map id (V2.upgrades g)) -> In u (V2.upgrades g) ->
      (V2.cardAvailable g u = false <-> V2.buyUpgrade (id u) g = Some g)).
Proof.
  split; intros g; [apply V1_card_locked_iff | apply V2_card_locked_iff].
Qed.

Lemma tables_ids_distinct :
  NoDup (map id V1.initial_upgrades) /\ NoDup (map id V2.initial_upgrades).
Proof.
  split; simpl; repeat constructor; simpl;
    intuition discriminate.
Qed.

Lemma card_matches_purchase_witness :
  let u := mkUpgrade "u2" "Resonance Chamber" "Increases base Flux rate by 5.0"
                     100 1.2 0 5.0 None in
  V1.cardAvailable V1_funded u = false <->
  V1.buyUpgrade "u2" V1_funded = Some (V1_funded, []).
Proof.
  intros u. apply (proj1 (card_matches_purchase u) V1_funded).
  - apply tables_ids_distinct.
  - simpl. right. left. reflexivity.
Defined.

(** *** Loading *)

(** X18: when [loadGame ()] returns and what it has stored are numbers
    (whole numbers for the reboot counter and the counts), or when it finds
    nothing stored, the engine has the upgrades it had, in the same order,
    with at most their counts changed, and [lastTick] is untouched. *)
Theorem load_changes_counts_only (saved : item) (g g' : V1.GameEngine) :
  V1.loadGame saved g = Returned g' ->
  same_definitions (V1.upgrades g') (V1.upgrades g) /\
  V1.lastTick g' = V1.lastTick g.
Proof. apply V1_loadGame_returned. Qed.

Lemma load_changes_counts_only_witness :
  same_definitions
    (update_found "u2" (set_count 3) V1.initial_upgrades) V1.initial_upgrades /\
  0%Z = 0%Z.
Proof.
  apply (load_changes_counts_only
           (Json (JObj [("flux"%string, JNum 7);
                        ("upgrades"%string,
                         JArr [JObj [("id"%string, JStr "u2");
                                     ("count"%string, JNum 3)];
                               JObj [("id"%string, JStr "u9");
                                     ("count"%string, JNum 1)]])]))
           (V1.constructor 0)
           (V1.mkGame (Q2R 7) 0 1.0 0
              (update_found "u2" (set_count 3) V1.initial_upgrades) 0)).
  reflexivity.
Defined.

(** X19: when the coherence of the save is a number [q] and [loadGame ()]
    returns, the coherence it leaves is never 0: because of
    [data.coherence || 1.0] a saved 0 is read as 1. *)
Theorem load_never_reads_coherence_0 (m : list (string * json)) (q : Q)
        (g g' : V1.GameEngine) :
  assoc "coherence" m = Some (JNum q) ->
  V1.loadGame (Json (JObj m)) g = Returned g' ->
  V1.coherence g' <> 0 /\
  (Qeq_bool q 0 = true -> V1.coherence g' = 1).
Proof.
  simpl. intros Hq H. rewrite Hq in H.
  apply bind_returned in H. destruct H as (f & _ & H).
  apply bind_returned in H. destruct H as (t & _ & H).
  apply bind_returned in H. destruct H as (c & Hc & H).
  apply bind_returned in H. destruct H as (r & _ & H).
  apply bind_returned in H. destruct H as (l & Hl & H).
  injection H as <-. cbn [V1.coherence].
  split; [apply (number_or_nonzero (Some (JNum q)) 1.0 c); [lra | exact Hc] |].
  unfold number_or in Hc. cbn [truthy] in Hc.
  destruct (Qeq_bool q 0); cbn [negb] in Hc; injection Hc as <-;
    intros E; [lra | discriminate].
Qed.

Lemma load_never_reads_coherence_0_witness :
  V1.coherence (V1.mkGame 0 0 1.0 0 V1.initial_upgrades 0) <> 0 /\
  (Qeq_bool 0 0 = true ->
   V1.coherence (V1.mkGame 0 0 1.0 0 V1.initial_upgrades 0) = 1).
Proof.
  apply (load_never_reads_coherence_0
           [("coherence"%string, JNum 0); ("upgrades"%string, JArr [])] 0
           (V1.constructor 0)).
  - reflexivity.
  - reflexivity.
Defined.

(** *** Saving, then loading *)

Lemma update_found_absent (i : string) (f : upgrade -> upgrade)
      (l : list upgrade) :
  find_upgrade i l = None -> update_found i f l = l.
Proof.
  unfold find_upgrade. induction l as [| u r IH]; simpl; [reflexivity |].
  destruct (String.eqb (id u) i); [discriminate |].
  intros H. rewrite (IH H). reflexivity.
Qed.

Lemma load_saved_entry (i : string) (n : nat) (l : list upgrade) :
  V1.load_entry (V1.saved_entry (i, n)) l =
  Returned (update_found i (set_count n) l).
Proof.
  pose proof (Q_to_nat_of_nat n) as Hn.
  remember (inject_Z (Z.of_nat n)) as q.
  unfold V1.load_entry, V1.saved_entry. simpl. rewrite <- Heqq.
  destruct (find_upgrade i l) as [u |] eqn:Hf; simpl.
  - rewrite Hn. reflexivity.
  - rewrite (update_found_absent i _ l Hf). reflexivity.
Qed.

(** Writing the count of [u] over an upgrade that differs from it by its
    count gives [u]. *)
Lemma set_count_same_definition (u v : upgrade) :
  set_count 0 v = set_count 0 u -> set_count (count u) v = u.
Proof.
  destruct u, v. unfold set_count. simpl. intros H.
  injection H as -> -> -> -> -> -> ->. reflexivity.
Qed.

Lemma update_found_skips_head (i : string) (f : upgrade -> upgrade)
      (u : upgrade) (l : list upgrade) :
  id u <> i -> update_found i f (u :: l) = u :: update_found i f l.
Proof.
  intros H. simpl. destruct (String.eqb_spec (id u) i); [contradiction |].
  reflexivity.
Qed.

Lemma load_saved_entries (lg lh done : list upgrade) :
  same_definitions lh lg ->
  NoDup (map id (done ++ lg)) ->
  V1.load_entries (map V1.saved_entry (map (fun u => (id u, count u)) lg))
                  (done ++ lh)
  = Returned (done ++ lg).
Proof.
  unfold same_definitions. revert lh done.
  induction lg as [| u r IH]; intros lh done Hd Hnd.
  - destruct lh; [reflexivity | discriminate].
  - destruct lh as [| v lh']; [discriminate |].
    cbn [map] in Hd.
    assert (Hv : set_count 0 v = set_count 0 u) by congruence.
    assert (Hd' : map (set_count 0) lh' = map (set_count 0) r) by congruence.
    assert (Hi : id v = id u) by exact (f_equal id Hv).
    cbn [map V1.load_entries]. rewrite load_saved_entry. cbn [bind].
    assert (Hstep : update_found (id u) (set_count (count u)) (done ++ v :: lh')
                    = done ++ u :: lh').
    { clear IH Hd Hd'. induction done as [| w done' IHd]; simpl.
      - rewrite Hi, String.eqb_refl, (set_count_same_definition u v Hv).
        reflexivity.
      - simpl in Hnd. inversion Hnd as [| ? ? Hw Hrest]; subst.
        destruct (String.eqb_spec (id w) (id u)) as [E | E].
        + exfalso. apply Hw. rewrite E, map_app. apply in_or_app. right.
          simpl. left. reflexivity.
        + rewrite (IHd Hrest). reflexivity. }
    rewrite Hstep.
    replace (done ++ u :: lh') with ((done ++ [u]) ++ lh')
      by (rewrite <- app_assoc; reflexivity).
    replace (done ++ u :: r) with ((done ++ [u]) ++ r)
      by (rewrite <- app_assoc; reflexivity).
    apply IH; [exact Hd' |].
    rewrite <- app_assoc. exact Hnd.
Qed.

Lemma number_or_rational (q : Q) (d : R) :
  Q2R q <> 0 \/ d = 0 -> number_or (Some (JNum q)) d = Returned (Q2R q).
Proof.
  unfold number_or. simpl. intros H.
  destruct (Qeq_bool q 0) eqn:E; simpl; [| reflexivity].
  apply Qeq_bool_eq in E. apply Qeq_eqR in E.
  rewrite RMicromega.Q2R_0 in E.
  destruct H as [H | ->]; [contradiction | rewrite E; reflexivity].
Qed.

Lemma counter_or_nat (n : nat) :
  counter_or (Some (JNum (inject_Z (Z.of_nat n)))) 0 = Returned n.
Proof.
  pose proof (Q_to_nat_of_nat n) as Hn.
  unfold counter_or. cbn [truthy].
  destruct (Qeq_bool (inject_Z (Z.of_nat n)) 0) eqn:E; cbn [negb].
  - apply Qeq_bool_eq in E. unfold Qeq in E. simpl in E.
    assert (n = 0%nat) by lia. subst n. reflexivity.
  - rewrite Hn. reflexivity.
Qed.

(** X20: what [saveGame ()] writes, [loadGame ()] reads back: on an engine
    with the same upgrades up to their counts (the fresh engine, say), it
    restores [flux], [totalFlux], [coherence], [rebootCount] and every count
    of the saved engine, provided the saved coherence is not 0 and no two
    upgrades share an id. *)
Theorem save_then_load (g h : V1.GameEngine) (data : V1.save_data) (j : json) :
  snd (V1.saveGame g) = [V1.SetItem "zenith_save" data] ->
  V1.stringified data j ->
  V1.coherence g <> 0 ->
  NoDup (map id (V1.upgrades g)) ->
  same_definitions (V1.upgrades h) (V1.upgrades g) ->
  V1.loadGame (Json j) h =
  Returned (V1.mkGame (V1.flux g) (V1.totalFlux g) (V1.coherence g)
                      (V1.rebootCount g) (V1.upgrades g) (V1.lastTick h)).
Proof.
  intros Hs (f & t & c & Hf & Ht & Hc & ->) Hc0 Hnd Hd.
  unfold V1.saveGame in Hs. cbv zeta in Hs. cbn [snd] in Hs.
  injection Hs as <-. cbn [V1.saved_flux V1.saved_totalFlux V1.saved_coherence
    V1.saved_rebootCount V1.saved_upgrades] in *.
  unfold V1.loadGame, V1.saved_json.
  cbn [prop assoc String.eqb Ascii.eqb Bool.eqb bind].
  rewrite (number_or_rational f 0) by (right; reflexivity). cbn [bind].
  rewrite (number_or_rational t 0) by (right; reflexivity). cbn [bind].
  rewrite (number_or_rational c 1.0) by (left; rewrite Hc; exact Hc0).
  cbn [bind]. rewrite counter_or_nat. cbn [bind V1.load_upgrades].
  pose proof (load_saved_entries (V1.upgrades g) (V1.upgrades h) [] Hd Hnd)
    as Hl.
  cbn [app] in Hl. rewrite Hl.
  cbn [bind]. rewrite Hf, Ht, Hc. reflexivity.
Qed.

(** *** The cockpit read-outs *)



(** X22: along a session of the second engine the offset of the velocity
    ring stays within [[0, 283]], and is 0 from a velocity of [1e12] on. *)
Theorem ring_offset_in_range (g : V2.GameEngine) :
  V2_reachable g ->
  0 <= V2.ringOffset g <= 283 /\
  (1e12 <= V2.velocity g -> V2.ringOffset g = 0).
Proof.
  intros Hr. destruct (V2_session g Hr) as (_ & _ & _ & _ & _ & _ & Hv).
  unfold V2.ringOffset. cbv zeta.
  assert (Hq : 0 <= V2.velocity g / 1e12) by (apply Rmult_le_pos; lra).
  split.
  - pose proof (Rmin_l 1 (V2.velocity g / 1e12)) as Hm.
    assert (0 <= Rmin 1 (V2.velocity g / 1e12)) by (apply Rmin_glb; lra).
    lra.
  - intros H. rewrite Rmin_left; [lra |].
    apply Rmult_le_reg_r with 1e12; [lra |].
    unfold Rdiv. rewrite Rmult_assoc, Rinv_l by lra. lra.
Qed.

Lemma ring_offset_in_range_witness :
  0 <= V2.ringOffset (V2.collect (V2.constructor 0)) <= 283.
Proof.
  apply ring_offset_in_range. apply V2_collect_reachable. constructor.
Defined.



(** *** The starfield *)

Lemma ln_10_pos : 0 < ln 10.
Proof. rewrite <- ln_1. apply ln_increasing; lra. Qed.

Lemma Math_log10_nonneg (x : R) : 1 <= x -> 0 <= Math_log10 x.
Proof.
  intros H. unfold Math_log10. pose proof ln_10_pos.
  apply Rmult_le_pos; [| left; apply Rinv_0_lt_compat; assumption].
  destruct H as [H | <-]; [| rewrite ln_1; lra].
  left. rewrite <- ln_1. apply ln_increasing; lra.
Qed.

Lemma Starfield_speed_bounds (velocity : R) :
  0 <= velocity -> 0.1 <= Starfield.speed velocity <= 50.
Proof.
  intros H. unfold Starfield.speed.
  pose proof (Math_log10_nonneg (velocity + 1)).
  split; [apply Rmin_glb; lra | apply Rmin_r].
Qed.

Lemma Starfield_move_depth (sp width height : R) (r : R * R)
      (s : Starfield.star) :
  0 < sp -> 0 < width -> Starfield.z s <= width ->
  0 < Starfield.z (Starfield.move sp width height r s) <= width.
Proof.
  intros Hs Hw Hz. unfold Starfield.move. cbv zeta.
  destruct (Rle_dec (Starfield.z s - sp) 0); simpl; lra.
Qed.

Lemma Starfield_size_bounds (width : R) (s : Starfield.star) :
  0 < width -> 0 < Starfield.z s ->
  0 <= Starfield.size width s < 3.
Proof.
  intros Hw Hz. unfold Starfield.size. split; [apply Rmax_l |].
  assert (0 < Starfield.z s / width) by (apply Rdiv_lt_0_compat; lra).
  apply Rmax_lub_lt; lra.
Qed.

(** X24: for a velocity that is not negative the speed of the starfield is
    within [[0.1, 50]]; on a canvas of positive width whose stars are no
    deeper than the width, [update] leaves every star with
    [0 < z <= width], so that the projection [width / z] never divides by
    zero, and with a size within [[0, 3)]. *)
Theorem stars_stay_in_front (velocity width height : R)
        (rnd : nat -> R * R) (stars : list Starfield.star) :
  0 <= velocity -> 0 < width ->
  Forall (fun s => Starfield.z s <= width) stars ->
  0.1 <= Starfield.speed velocity <= 50 /\
  Forall (fun s => 0 < Starfield.z s <= width /\
                   0 <= Starfield.size width s < 3)
         (Starfield.update velocity width height rnd stars).
Proof.
  intros Hv Hw Hs. pose proof (Starfield_speed_bounds velocity Hv) as Hsp.
  split; [exact Hsp |]. unfold Starfield.update.
  generalize 0%nat. induction Hs as [| s r Hz Hr IH]; intros k; simpl.
  - constructor.
  - constructor; [| apply IH].
    pose proof (Starfield_move_depth (Starfield.speed velocity) width height
                  (rnd k) s) as Hm.
    assert (Hd : 0 < Starfield.z (Starfield.move (Starfield.speed velocity)
                                    width height (rnd k) s) <= width)
      by (apply Hm; lra).
    split; [exact Hd |]. apply Starfield_size_bounds; lra.
Qed.

Lemma stars_stay_in_front_witness :
  Forall (fun s => 0 < Starfield.z s <= 800 /\
                   0 <= Starfield.size 800 s < 3)
         (Starfield.update 0 800 600 (fun _ => (0.5, 0.5))
            [Starfield.mkStar 0 0 0 1; Starfield.mkStar 1 1 800 0.5]).
Proof.
  apply (stars_stay_in_front 0 800 600).
  - lra.
  - lra.
  - repeat constructor; simpl; lra.
Defined.

(** *** The time of arrival as text *)

Lemma Zfloor_div (x : R) (k : Z) :
  0 <= x -> (0 < k)%Z -> Zfloor (x / IZR k) = (Zfloor x / k)%Z.
Proof.
  intros Hx Hk. pose proof (Zfloor_bound x) as [Hl Hu].
  set (n := Zfloor x) in *.
  pose proof (Z.div_mod n k ltac:(lia)) as Hn.
  pose proof (Z.mod_pos_bound n k Hk) as [Hr0 Hr1].
  assert (HK : 0 < IZR k) by (apply IZR_lt; exact Hk).
  assert (En : IZR n = IZR k * IZR (n / k) + IZR (n mod k))
    by (rewrite <- mult_IZR, <- plus_IZR; f_equal; exact Hn).
  assert (Er0 : 0 <= IZR (n mod k)) by (apply IZR_le; exact Hr0).
  assert (Er1 : IZR (n mod k) <= IZR k - 1)
    by (rewrite <- minus_IZR; apply IZR_le; lia).
  apply Zfloor_eq.
  assert (Ey : x = x / IZR k * IZR k) by (field; lra).
  set (y := x / IZR k) in *. split.
  - apply Rmult_le_reg_r with (IZR k); [exact HK | nra].
  - apply Rmult_lt_reg_r with (IZR k); [exact HK | nra].
Qed.

Lemma js_rem_nonneg (s : R) (d : Z) :
  0 <= s -> (0 < d)%Z ->
  js_rem s (IZR d) = s - IZR (d * (Zfloor s / d)).
Proof.
  intros Hs Hd. unfold js_rem.
  assert (HD : 0 < IZR d) by (apply IZR_lt; exact Hd).
  assert (0 <= s / IZR d) by (apply Rmult_le_pos;
    [exact Hs | left; apply Rinv_0_lt_compat; exact HD]).
  destruct (Rle_dec 0 (s / IZR d)); [| contradiction].
  rewrite Zfloor_div by assumption. rewrite mult_IZR. reflexivity.
Qed.

Lemma Zfloor_minus_Z (x : R) (j : Z) : Zfloor (x - IZR j) = (Zfloor x - j)%Z.
Proof.
  replace (x - IZR j) with (x + IZR (- j)) by (rewrite opp_IZR; ring).
  rewrite Zfloor_addz. lia.
Qed.

(** X25: for a time [s] above 0 and at most a hundred years, [formatTime]
    writes the whole seconds [n] of [s] as hours, minutes and seconds:
    [n / 3600], [(n mod 3600) / 60] and [n mod 60], each padded to two
    digits; at [s = 0] it writes dashes and above a hundred years
    ["> 100 YEARS"]. *)
Theorem formatTime_is_hours_minutes_seconds (s : R) :
  (s = 0 -> V2.formatTime s = "--:--:--"%string) /\
  (3153600000 < s -> V2.formatTime s = "> 100 YEARS"%string) /\
  (0 < s <= 3153600000 ->
   let n := Math_floor s in
   V2.formatTime s =
   (pad2 (n / 3600) ++ ":" ++ pad2 ((n mod 3600) / 60) ++ ":"
    ++ pad2 (n mod 60))%string).
Proof.
  unfold V2.formatTime. repeat split.
  - intros ->. destruct (Req_dec_T 0 0); [reflexivity | contradiction].
  - intros H. destruct (Req_dec_T s 0); [lra |].
    destruct (Rlt_dec (31536000 * 100) s); [reflexivity | lra].
  - intros [H0 H1]. cbv zeta. destruct (Req_dec_T s 0) as [E | E]; [lra |].
    destruct (Rlt_dec (31536000 * 100) s) as [E' | E']; [lra |].
    unfold Math_floor. set (n := Zfloor s).
    rewrite (js_rem_nonneg s 3600), (js_rem_nonneg s 60) by (lra || lia).
    rewrite (Zfloor_div s 3600) by (lra || lia).
    assert (Hq : 0 <= s - IZR (3600 * (Zfloor s / 3600))).
    { pose proof (Zfloor_bound s) as [Hl _].
      pose proof (Z.mul_div_le (Zfloor s) 3600 ltac:(lia)) as Hm.
      apply IZR_le in Hm. lra. }
    rewrite (Zfloor_div _ 60 Hq) by lia.
    rewrite !Zfloor_minus_Z. fold n.
    replace (n - 3600 * (n / 3600))%Z with (n mod 3600)%Z
      by (rewrite Z.mod_eq by lia; reflexivity).
    replace (n - 60 * (n / 60))%Z with (n mod 60)%Z
      by (rewrite Z.mod_eq by lia; reflexivity).
    reflexivity.
Qed.

Lemma formatTime_is_hours_minutes_seconds_witness :
  V2.formatTime 0 = "--:--:--"%string /\
  V2.formatTime 4e9 = "> 100 YEARS"%string /\
  V2.formatTime 3725.5 = "01:02:05"%string.
Proof.
  destruct (formatTime_is_hours_minutes_seconds 0) as (H0 & _ & _).
  destruct (formatTime_is_hours_minutes_seconds 4e9) as (_ & H1 & _).
  destruct (formatTime_is_hours_minutes_seconds 3725.5) as (_ & _ & H2).
  split; [apply H0; reflexivity | split; [apply H1; lra |]].
  rewrite H2 by lra.
  replace (Math_floor 3725.5) with 3725%Z; [reflexivity |].
  symmetry. apply Zfloor_eq. lra.
Defined.

Lemma Q2R_whole (z : Z) : Q2R (inject_Z z) = IZR z.
Proof. unfold Q2R, inject_Z. simpl. field. Qed.

Lemma save_then_load_witness :
  V1.loadGame
    (Json (V1.saved_json (inject_Z 10) (inject_Z 20) (inject_Z 1) 0
             [("u1"%string, 1%nat); ("u2"%string, 0%nat);
              ("u3"%string, 0%nat); ("u4"%string, 0%nat)]))
    (V1.constructor 5)
  = Returned (V1.mkGame 10 20 1 0
                (update_found "u1" incr_count V1.initial_upgrades) 5).
Proof.
  apply (save_then_load V1_running (V1.constructor 5)
           (V1.mkSave 10 20 1 0
              [("u1"%string, 1%nat); ("u2"%string, 0%nat);
               ("u3"%string, 0%nat); ("u4"%string, 0%nat)])).
  - reflexivity.
  - exists (inject_Z 10), (inject_Z 20), (inject_Z 1).
    rewrite !Q2R_whole. repeat split; reflexivity.
  - simpl. lra.
  - simpl. repeat constructor; simpl; intuition discriminate.
  - reflexivity.
Defined.
